(** * nginx-operator: the event handler of [pkg/stub/handler.go]

    A shallow embedding of [Handle], [reconcile], [reconcileDeployment],
    [reconcileService] and [refreshStatus], and the properties of the
    dependent-resource reconciliation and of the status refresh.

    The handler talks to the cluster through the operator SDK
    ([sdk.Create], [sdk.Get], [sdk.Update], [sdk.List]).  The SDK is an
    interface here: a [Client] is any four functions over a store, and the
    embedding records every call it issues, and every line it logs, in the
    [World] it threads through the code. *)

From Stdlib Require Import NArith Sorted Permutation.
From stdpp Require Import base option list sorting gmap strings.

(** ** Go slices

    A slice value is [nil] or a non-nil slice with its elements; a non-nil
    slice may be empty.  [reflect.DeepEqual] tells the two apart. *)

Module slice.

Definition t (A : Type) : Type := option (list A).

Definition nil {A} : t A := None.

(** [len(s)] *)
Definition len {A} (s : t A) : nat :=
    match s with None => 0 | Some l => length l end.

(** the elements of [s], as [for _, x := range s] visits them *)
Definition elems {A} (s : t A) : list A :=
    match s with None => [] | Some l => l end.

(** [append(s, x)]: the result is never nil *)
Definition append {A} (s : t A) (x : A) : t A :=
    Some (elems s ++ [x]).

Definition is_nil {A} (s : t A) : bool :=
    match s with None => true | Some _ => false end.

End slice.

(** ** k8s.io/apimachinery: object metadata and API errors *)

Module metav1.

Record ObjectMeta := {
    Name : string;
    Namespace : string
  }.

(** [type StatusReason string] *)
Definition StatusReason := string.
Definition StatusReasonUnknown : StatusReason := "".
Definition StatusReasonAlreadyExists : StatusReason := "AlreadyExists".
Definition StatusReasonNotFound : StatusReason := "NotFound".

Record TypeMeta := {
  Kind : string;
  APIVersion : string
}.

Record ListOptions := { LabelSelector : string }.

End metav1.

(** A Go [error] value that is not nil: an API status error with its reason,
    or a plain error made by [fmt.Errorf].  The Go value [nil] is [None] of
    [option error]. *)
Inductive error :=
| StatusError (reason : metav1.StatusReason) (message : string)
| errorString (s : string).

(** [err.Error()] *)
Definition Error (e : error) : string :=
  match e with
  | StatusError _ m => m
  | errorString s => s
  end.

Module errors.

(** [errors.ReasonForError]: the reason of an API status, unknown for
      everything else, nil included. *)
Definition ReasonForError (err : option error) : metav1.StatusReason :=
    match err with
    | Some (StatusError r _) => r
    | _ => metav1.StatusReasonUnknown
    end.

Definition IsAlreadyExists (err : option error) : bool :=
    String.eqb (ReasonForError err) metav1.StatusReasonAlreadyExists.

End errors.

Module fmt.
(** [fmt.Errorf(format ++ "%v", err)] with the verb at the end of the
      format: a new plain error, whose text is the format's prefix followed
      by [err.Error()]. *)
Definition Errorf (pfx : string) (err : error) : error :=
    errorString (pfx +:+ Error err).
End fmt.

(** ** The objects the handler touches *)

Module corev1.
Record PodStatus := { PodIP : string }.
Record Pod := {
    ObjectMeta : metav1.ObjectMeta;
    Status : PodStatus
  }.
End corev1.

(** Deployments and Services are built elsewhere ([k8s.NewDeployment],
    [k8s.NewService]); to the handler they are an identity and a payload it
    never looks into. *)
Module appsv1.
Record Deployment := {
    ObjectMeta : metav1.ObjectMeta;
    Spec : string
  }.
End appsv1.

Module v1.
Record Service := {
    ObjectMeta : metav1.ObjectMeta;
    Spec : string
  }.
End v1.

Module v1alpha1.

(** Modelled from the spec: the declaration of [NginxPod] in
      [pkg/apis/nginx/v1alpha1], a record of a pod's name and IP. *)
Record NginxPod := {
    Name : string;
    PodIP : string
  }.

(** Modelled from the spec: the declaration of [NginxStatus] in
      [pkg/apis/nginx/v1alpha1], the list of observed pods. *)
Record NginxStatus := {
    Pods : slice.t NginxPod
  }.

(** Modelled from the spec: the declaration of [Nginx] in
      [pkg/apis/nginx/v1alpha1]; the user's spec is opaque to the handler. *)
Record Nginx := {
    ObjectMeta : metav1.ObjectMeta;
    Spec : string;
    Status : NginxStatus
  }.

(** [nginx.Status.Pods = pods] *)
Definition set_Status_Pods (nginx : Nginx) (pods : slice.t NginxPod) : Nginx :=
    {| ObjectMeta := ObjectMeta nginx;
       Spec := Spec nginx;
       Status := {| Pods := pods |} |}.

End v1alpha1.

(** What a [runtime.Object] (the SDK's [sdk.Object]) can be in this program:
    the dynamic type behind the interface, with the value it points to. *)
Module runtime.
Inductive Object :=
| ONginx (o : v1alpha1.Nginx)
| ODeployment (d : appsv1.Deployment)
| OService (s : v1.Service)
| OPod (p : corev1.Pod).
End runtime.

(** ** Package sort

    [sort.Slice(x, less)] sorts [x] in place and is not stable.  Its
    contract is all the handler relies on: the result is a rearrangement of
    the input, in ascending order when [less] is a transitive ordering.  A
    [Sorter] is any function that meets the contract. *)

Module sort.

(** [le_of less a b]: [b] is not less than [a]. *)
Definition le_of {A} (less : A -> A -> bool) : relation A :=
  fun a b => less b a = false.

#[global] Instance le_of_dec {A} (less : A -> A -> bool) (a b : A) :
  Decision (le_of less a b) := bool_eq_dec (less b a) false.

Class Sorter := {
  sorted_of : forall {A : Type}, (A -> A -> bool) -> list A -> list A;
  sorted_of_Permutation :
    forall A (less : A -> A -> bool) (l : list A), sorted_of less l ≡ₚ l;
  sorted_of_StronglySorted :
    forall A (less : A -> A -> bool) (l : list A),
      Transitive (le_of less) -> Total (le_of less) ->
      StronglySorted (le_of less) (sorted_of less l)
}.

(** [sort.Slice(x, less)], on the slice value: a nil slice stays nil, a
    non-nil slice keeps its length. *)
Definition Slice {sorter : Sorter} {A} (x : slice.t A) (less : A -> A -> bool) : slice.t A :=
  match x with
  | None => None
  | Some l => Some (sorted_of less l)
  end.

(** A sorter that runs: merge sort. *)
Definition merge_sorter : Sorter :=
  {| sorted_of := fun A less => merge_sort (le_of less);
     sorted_of_Permutation := fun A less l => merge_sort_Permutation (le_of less) l;
     sorted_of_StronglySorted := fun A less l Htrans Htotal =>
       StronglySorted_merge_sort (le_of less) l |}.

End sort.

(** ** Package reflect

    [reflect.DeepEqual] at the type [[]NginxPod]: both nil or both non-nil,
    the same length, and the elements deeply equal one by one; two
    [NginxPod] are deeply equal when their fields are.  (Two slices over the
    same array are equal without a look at the elements, which gives the
    same answer.) *)

Module reflect.

Definition DeepEqual_NginxPod (a b : v1alpha1.NginxPod) : bool :=
  String.eqb (v1alpha1.Name a) (v1alpha1.Name b)
  && String.eqb (v1alpha1.PodIP a) (v1alpha1.PodIP b).

Fixpoint DeepEqual_elems (l1 l2 : list v1alpha1.NginxPod) : bool :=
  match l1, l2 with
  | [], [] => true
  | a :: l1', b :: l2' => DeepEqual_NginxPod a b && DeepEqual_elems l1' l2'
  | _, _ => false
  end.

Definition DeepEqual (x y : slice.t v1alpha1.NginxPod) : bool :=
  if negb (Bool.eqb (slice.is_nil x) (slice.is_nil y)) then false
  else if negb (Nat.eqb (slice.len x) (slice.len y)) then false
  else DeepEqual_elems (slice.elems x) (slice.elems y).

End reflect.

(** ** Package logrus: the lines the handler logs *)

Module logrus.

Inductive Level := ErrorLevel | InfoLevel | DebugLevel.

Definition Fields := list (string * string).

Record Logger := { LoggerLevel : Level }.

(** [logger.WithFields(fields)] *)
Record Entry := { Data : Fields }.

Definition WithFields (l : Logger) (fields : Fields) : Entry :=
  {| Data := fields |}.

(** One call of [Debug], [Info] or [Errorf] on an entry. *)
Record Line := {
  LineLevel : Level;
  LineData : Fields;
  Message : string
}.

End logrus.

(** ** What is built outside this file

    [k8s.NewDeployment], [k8s.NewService] and [k8s.LabelsForNginx] belong to
    package [pkg/stub/k8s]; the selector's text and the two renderings used
    in log lines come from libraries.  They are parameters. *)

Module k8s.

Definition LabelSet := gmap string string.

Class Builders := {
  NewDeployment : v1alpha1.Nginx -> appsv1.Deployment;
  NewService : v1alpha1.Nginx -> v1.Service;
  LabelsForNginx : string -> LabelSet;
  (** [labels.SelectorFromSet(set).String()] *)
  SelectorFromSet_String : LabelSet -> string;
  (** [o.GetObjectKind().GroupVersionKind().String()] *)
  GroupVersionKind_String : v1alpha1.Nginx -> string;
  (** the rendering of [o] by the verb [%+v] *)
  Sprint_plus_v : v1alpha1.Nginx -> string
}.

End k8s.

(** ** Package sdk: the calls to the cluster

    A [Client] is the resource client behind the SDK: each operation takes
    the store to an answer and a store.  [client_Get] gives back the object
    as the call left it (the SDK fills it in place); [client_List] gives
    back the items it put in the list.  Of [client_Create] and
    [client_Update] the handler reads the error and nothing else.  Nothing
    is assumed of a client. *)

Module sdk.

Record Event := {
  Object : runtime.Object;
  Deleted : bool
}.

Inductive Call :=
| CallCreate (object : runtime.Object)
| CallGet (object : runtime.Object)
| CallUpdate (object : runtime.Object)
| CallList (namespace : string) (into : metav1.TypeMeta) (opts : metav1.ListOptions).

Class Client (Store : Type) := {
  client_Create : runtime.Object -> Store -> option error * Store;
  client_Get : runtime.Object -> Store -> (runtime.Object * option error) * Store;
  client_Update : runtime.Object -> Store -> option error * Store;
  client_List : string -> metav1.TypeMeta -> metav1.ListOptions -> Store ->
                (list corev1.Pod * option error) * Store
}.

End sdk.

(** ** The world the handler runs in, and the monad that threads it *)

Record World (Store : Type) := mkWorld {
  store : Store;
  calls : list sdk.Call;
  logs : list logrus.Line
}.
Arguments mkWorld {Store}.
Arguments store {Store}.
Arguments calls {Store}.
Arguments logs {Store}.

Definition M (Store A : Type) : Type := World Store -> A * World Store.

Definition ret {Store A} (a : A) : M Store A := fun w => (a, w).

Definition bind {Store A B} (c : M Store A) (k : A -> M Store B) : M Store B :=
  fun w => let (a, w') := c w in k a w'.

Notation "'let*' x ':=' c 'in' k" := (bind c (fun x => k))
  (at level 10, x pattern, c at level 100, k at level 200).

(** a call of the client on the store, recorded *)
Definition call {Store A} (c : sdk.Call) (op : Store -> A * Store) : M Store A :=
  fun w => let (a, s) := op (store w) in
           (a, mkWorld s (calls w ++ [c]) (logs w)).

Definition log {Store} (lvl : logrus.Level) (logger : logrus.Entry) (msg : string) :
  M Store unit :=
  fun w => (tt, mkWorld (store w) (calls w)
                        (logs w ++ [logrus.Build_Line lvl (logrus.Data logger) msg])).

(** the verb [%v] on an error *)
Definition Sprint_v (err : option error) : string :=
  match err with
  | Some e => Error e
  | None => "<nil>"
  end.

(** ** The handler

    Every function takes a [context.Context] that none of them reads; it is
    left out.  The logger of a [Handler] is a logger, not nil. *)

Section Handler.

Context {Store : Type} {client : sdk.Client Store}.
Context {sorter : sort.Sorter} {builders : k8s.Builders}.

Definition sdk_Create (object : runtime.Object) : M Store (option error) :=
  call (sdk.CallCreate object) (sdk.client_Create object).

Definition sdk_Get (object : runtime.Object) : M Store (runtime.Object * option error) :=
  call (sdk.CallGet object) (sdk.client_Get object).

Definition sdk_Update (object : runtime.Object) : M Store (option error) :=
  call (sdk.CallUpdate object) (sdk.client_Update object).

Definition sdk_List (namespace : string) (into : metav1.TypeMeta)
    (opts : metav1.ListOptions) : M Store (list corev1.Pod * option error) :=
  call (sdk.CallList namespace into opts) (sdk.client_List namespace into opts).

Definition is_nil (err : option error) : bool :=
  match err with None => true | Some _ => false end.

Definition reconcileDeployment (nginx : v1alpha1.Nginx) (logger : logrus.Entry) :
  M Store (option error) :=
  let deployment := runtime.ODeployment (k8s.NewDeployment nginx) in
  let* err := sdk_Create deployment in
  if negb (is_nil err) && negb (errors.IsAlreadyExists err) then
    let* _ := log logrus.ErrorLevel logger
                  ("Failed to create deployment: " +:+ Sprint_v err) in
    ret err
  else if is_nil err then
    ret None
  else
    let* (deployment, err) := sdk_Get deployment in
    if negb (is_nil err) then
      let* _ := log logrus.ErrorLevel logger
                    ("Failed to retrieve deployment: " +:+ Sprint_v err) in
      ret err
    else
      let changed := false in
      if negb changed then
        let* _ := log logrus.DebugLevel logger "nothing changed" in
        ret None
      else
        let* err := sdk_Update deployment in
        if negb (is_nil err) then
          let* _ := log logrus.ErrorLevel logger
                        ("Failed to update deployment: " +:+ Sprint_v err) in
          ret err
        else
          ret None.

Definition reconcileService (nginx : v1alpha1.Nginx) (logger : logrus.Entry) :
  M Store (option error) :=
  let service := runtime.OService (k8s.NewService nginx) in
  let* err := sdk_Create service in
  if errors.IsAlreadyExists err then
    ret None
  else
    let* _ := (if negb (is_nil err)
               then log logrus.ErrorLevel logger
                        ("Failed to create service: " +:+ Sprint_v err)
               else ret tt) in
    ret err.

Definition reconcile (event : sdk.Event) (nginx : v1alpha1.Nginx)
    (logger : logrus.Entry) : M Store (option error) :=
  if sdk.Deleted event then
    let* _ := log logrus.InfoLevel logger "object deleted" in
    ret None
  else
    let* err := reconcileDeployment nginx logger in
    if negb (is_nil err) then ret err
    else
      let* err := reconcileService nginx logger in
      if negb (is_nil err) then ret err
      else ret None.

(** [func(i, j int) bool { return x[i].Name < x[j].Name }], on the elements *)
Definition less_Name (a b : v1alpha1.NginxPod) : bool :=
  String.ltb (v1alpha1.Name a) (v1alpha1.Name b).

(** [{Name: p.Name, PodIP: p.Status.PodIP}] *)
Definition NginxPod_of (p : corev1.Pod) : v1alpha1.NginxPod :=
  {| v1alpha1.Name := metav1.Name (corev1.ObjectMeta p);
     v1alpha1.PodIP := corev1.PodIP (corev1.Status p) |}.

(** the loop [for _, p := range podList.Items { pods = append(pods, ...) }],
    from [var pods []v1alpha1.NginxPod] *)
Definition observed (items : list corev1.Pod) : slice.t v1alpha1.NginxPod :=
  fold_left (fun pods p => slice.append pods (NginxPod_of p)) items slice.nil.

(** [refreshStatus] gets a pointer to the resource and writes through it:
    it takes the resource as it is at the call and gives it back as it is
    at the return, with the error. *)
Definition refreshStatus (event : sdk.Event) (nginx : v1alpha1.Nginx)
    (logger : logrus.Entry) : M Store (v1alpha1.Nginx * option error) :=
  if sdk.Deleted event then
    let* _ := log logrus.DebugLevel logger "nginx deleted, skipping status update" in
    ret (nginx, None)
  else
    let podList := {| metav1.Kind := "Pod"; metav1.APIVersion := "v1" |} in
    let labelSelector :=
      k8s.SelectorFromSet_String
        (k8s.LabelsForNginx (metav1.Name (v1alpha1.ObjectMeta nginx))) in
    let listOps := {| metav1.LabelSelector := labelSelector |} in
    let* (items, err) :=
      sdk_List (metav1.Namespace (v1alpha1.ObjectMeta nginx)) podList listOps in
    match err with
    | Some e => ret (nginx, Some (fmt.Errorf "failed to list pods: " e))
    | None =>
      let pods := observed items in
      let pods := sort.Slice pods less_Name in
      let nginx :=
        v1alpha1.set_Status_Pods nginx
          (sort.Slice (v1alpha1.Pods (v1alpha1.Status nginx)) less_Name) in
      if negb (reflect.DeepEqual pods (v1alpha1.Pods (v1alpha1.Status nginx))) then
        let nginx := v1alpha1.set_Status_Pods nginx pods in
        let* err := sdk_Update (runtime.ONginx nginx) in
        match err with
        | Some e => ret (nginx, Some (fmt.Errorf "failed to update nginx status: " e))
        | None => ret (nginx, None)
        end
      else
        ret (nginx, None)
    end.

Record Handler := { logger : logrus.Logger }.

Definition NewHandler (logger : logrus.Logger) : Handler :=
  {| logger := logger |}.

(** [Handle] gives back, with the error, the event's object as the call
    left it: the handler works on the object the event points to. *)
Definition Handle (h : Handler) (event : sdk.Event) :
  M Store (runtime.Object * option error) :=
  match sdk.Object event with
  | runtime.ONginx o =>
    let logger :=
      logrus.WithFields (logger h)
        [("name", metav1.Name (v1alpha1.ObjectMeta o));
         ("namespace", metav1.Namespace (v1alpha1.ObjectMeta o));
         ("kind", k8s.GroupVersionKind_String o)] in
    let* _ := log logrus.DebugLevel logger
                  ("Handling event for object: " +:+ k8s.Sprint_plus_v o) in
    let* err := reconcile event o logger in
    if negb (is_nil err) then ret (runtime.ONginx o, err)
    else
      let* (o, err) := refreshStatus event o logger in
      if negb (is_nil err) then ret (runtime.ONginx o, err)
      else ret (runtime.ONginx o, None)
  | other => ret (other, None)
  end.

End Handler.

(** ** Two clients that run

    [canned] answers every call from a fixed table and keeps no state: the
    client of a test.  [memstore] keeps the objects of a cluster in a map
    from kind, namespace and name to the object, and answers as an API
    server at rest does. *)

Module canned.

Record Answers := {
  onCreate : runtime.Object -> option error;
  onGet : runtime.Object -> option error;
  onUpdate : runtime.Object -> option error;
  onList : list corev1.Pod * option error
}.

Definition client (a : Answers) : sdk.Client unit :=
  {| sdk.client_Create := fun o s => (onCreate a o, s);
     sdk.client_Get := fun o s => ((o, onGet a o), s);
     sdk.client_Update := fun o s => (onUpdate a o, s);
     sdk.client_List := fun _ _ _ s => (onList a, s) |}.

End canned.

Module memstore.

Definition Key : Type := string * string * string.

Definition key_of (o : runtime.Object) : Key :=
  match o with
  | runtime.ONginx n =>
    ("Nginx", metav1.Namespace (v1alpha1.ObjectMeta n), metav1.Name (v1alpha1.ObjectMeta n))
  | runtime.ODeployment d =>
    ("Deployment", metav1.Namespace (appsv1.ObjectMeta d), metav1.Name (appsv1.ObjectMeta d))
  | runtime.OService s =>
    ("Service", metav1.Namespace (v1.ObjectMeta s), metav1.Name (v1.ObjectMeta s))
  | runtime.OPod p =>
    ("Pod", metav1.Namespace (corev1.ObjectMeta p), metav1.Name (corev1.ObjectMeta p))
  end.

Abbreviation Store := (gmap Key runtime.Object).

Definition AlreadyExists (o : runtime.Object) : error :=
  StatusError metav1.StatusReasonAlreadyExists
    ((key_of o).1.1 +:+ " " +:+ (key_of o).2 +:+ " already exists").

Definition NotFound (o : runtime.Object) : error :=
  StatusError metav1.StatusReasonNotFound
    ((key_of o).1.1 +:+ " " +:+ (key_of o).2 +:+ " not found").

Definition create (o : runtime.Object) (s : Store) : option error * Store :=
  match s !! key_of o with
  | Some _ => (Some (AlreadyExists o), s)
  | None => (None, <[key_of o := o]> s)
  end.

Definition get (o : runtime.Object) (s : Store) : (runtime.Object * option error) * Store :=
  match s !! key_of o with
  | Some o' => ((o', None), s)
  | None => ((o, Some (NotFound o)), s)
  end.

Definition update (o : runtime.Object) (s : Store) : option error * Store :=
  match s !! key_of o with
  | Some _ => (None, <[key_of o := o]> s)
  | None => (Some (NotFound o), s)
  end.

(** the pods of a namespace that the options select *)
Definition pods_of (selects : metav1.ListOptions -> corev1.Pod -> bool)
    (namespace : string) (opts : metav1.ListOptions) (s : Store) : list corev1.Pod :=
  omap (fun kv =>
          match kv.2 with
          | runtime.OPod p =>
            if String.eqb (metav1.Namespace (corev1.ObjectMeta p)) namespace
               && selects opts p
            then Some p else None
          | _ => None
          end)
       (map_to_list s).

Definition client (selects : metav1.ListOptions -> corev1.Pod -> bool) : sdk.Client Store :=
  {| sdk.client_Create := create;
     sdk.client_Get := get;
     sdk.client_Update := update;
     sdk.client_List := fun namespace _ opts s => ((pods_of selects namespace opts s, None), s) |}.

End memstore.

(** ** A store at rest

    What the reconciliation needs of a store to be repeatable: an object
    that was created, or that a create found in the way, is [present]; a
    create of a present object answers "already exists"; and neither that
    answer nor a successful get changes the store. *)

Class AtRest {Store : Type} (C : sdk.Client Store)
    (present : Store -> runtime.Object -> Prop) : Prop := {
  create_ok_present : forall o s s',
    sdk.client_Create o s = (None, s') -> present s' o;
  create_ok_keeps : forall o o' s s',
    sdk.client_Create o s = (None, s') -> present s o' -> present s' o';
  create_exists_present : forall o e s s',
    sdk.client_Create o s = (Some e, s') ->
    errors.IsAlreadyExists (Some e) = true -> s' = s /\ present s o;
  create_present : forall o s,
    present s o ->
    exists e, sdk.client_Create o s = (Some e, s)
              /\ errors.IsAlreadyExists (Some e) = true;
  get_present : forall o s,
    present s o -> exists o', sdk.client_Get o s = ((o', None), s)
}.

(** ** Words of the properties *)

(** [a] comes no later than [b] by name *)
Definition Name_le (a b : v1alpha1.NginxPod) : Prop :=
  String.leb (v1alpha1.Name a) (v1alpha1.Name b) = true.

(** a slice in ascending order of [Name]: every element comes no later
    than every element after it *)
Definition sorted_by_Name (s : slice.t v1alpha1.NginxPod) : Prop :=
  StronglySorted Name_le (slice.elems s).

(** two lists compared by their entries alone, as the design words the
    comparison: the same length, and at every index the same [Name] and the
    same [PodIP]; whether a list is nil plays no part *)
Definition same_entries (x y : slice.t v1alpha1.NginxPod) : Prop :=
  slice.len x = slice.len y
  /\ forall i a b, slice.elems x !! i = Some a -> slice.elems y !! i = Some b ->
       v1alpha1.Name a = v1alpha1.Name b /\ v1alpha1.PodIP a = v1alpha1.PodIP b.

(** the calls issued between two worlds *)
Definition issued {Store} (w w' : World Store) : list sdk.Call :=
  drop (length (calls w)) (calls w').

Definition is_List (c : sdk.Call) : bool :=
  match c with sdk.CallList _ _ _ => true | _ => false end.

Definition is_Update (c : sdk.Call) : bool :=
  match c with sdk.CallUpdate _ => true | _ => false end.

(** the writes of a resource's status among some calls *)
Definition status_writes (cs : list sdk.Call) : list v1alpha1.Nginx :=
  omap (fun c => match c with
                 | sdk.CallUpdate (runtime.ONginx n) => Some n
                 | _ => None
                 end) cs.

(** the objects of the update calls among some calls *)
Definition updates (cs : list sdk.Call) : list runtime.Object :=
  omap (fun c => match c with
                 | sdk.CallUpdate o => Some o
                 | _ => None
                 end) cs.

(** the list call of a status refresh: pods, in the resource's namespace,
    selected by the labels of its name *)
Definition pods_TypeMeta : metav1.TypeMeta :=
  {| metav1.Kind := "Pod"; metav1.APIVersion := "v1" |}.

Definition pods_ListOptions {builders : k8s.Builders} (nginx : v1alpha1.Nginx) : metav1.ListOptions :=
  {| metav1.LabelSelector :=
       k8s.SelectorFromSet_String
         (k8s.LabelsForNginx (metav1.Name (v1alpha1.ObjectMeta nginx))) |}.

Definition list_pods {builders : k8s.Builders} (nginx : v1alpha1.Nginx) : sdk.Call :=
  sdk.CallList (metav1.Namespace (v1alpha1.ObjectMeta nginx))
               pods_TypeMeta (pods_ListOptions nginx).

(** the two dependent objects of a resource, as the calls carry them *)
Definition deployment_of {builders : k8s.Builders} (nginx : v1alpha1.Nginx) : runtime.Object :=
  runtime.ODeployment (k8s.NewDeployment nginx).

Definition service_of {builders : k8s.Builders} (nginx : v1alpha1.Nginx) : runtime.Object :=
  runtime.OService (k8s.NewService nginx).

(** a line logged through [logger] *)
Definition line (lvl : logrus.Level) (logger : logrus.Entry) (msg : string) : logrus.Line :=
  logrus.Build_Line lvl (logrus.Data logger) msg.

(** the entry [Handle] logs through *)
Definition entry_of {builders : k8s.Builders} (h : Handler) (o : v1alpha1.Nginx) : logrus.Entry :=
  logrus.WithFields (logger h)
    [("name", metav1.Name (v1alpha1.ObjectMeta o));
     ("namespace", metav1.Namespace (v1alpha1.ObjectMeta o));
     ("kind", k8s.GroupVersionKind_String o)].

(** ** Sample data *)

Module sample.

Definition builders : k8s.Builders :=
  {| k8s.NewDeployment := fun n =>
       {| appsv1.ObjectMeta := v1alpha1.ObjectMeta n; appsv1.Spec := v1alpha1.Spec n |};
     k8s.NewService := fun n =>
       {| v1.ObjectMeta :=
            {| metav1.Name := metav1.Name (v1alpha1.ObjectMeta n) +:+ "-service";
               metav1.Namespace := metav1.Namespace (v1alpha1.ObjectMeta n) |};
          v1.Spec := "" |};
     k8s.LabelsForNginx := fun name => {[ "nginx_cr" := name ]};
     k8s.SelectorFromSet_String := fun ls =>
       match ls !! "nginx_cr" with Some v => "nginx_cr=" +:+ v | None => "" end;
     k8s.GroupVersionKind_String := fun _ => "nginx.tsuru.io/v1alpha1, Kind=Nginx";
     k8s.Sprint_plus_v := fun n => metav1.Name (v1alpha1.ObjectMeta n) |}.

Definition pod (name ip : string) : corev1.Pod :=
  {| corev1.ObjectMeta := {| metav1.Name := name; metav1.Namespace := "default" |};
     corev1.Status := {| corev1.PodIP := ip |} |}.

Definition npod (name ip : string) : v1alpha1.NginxPod :=
  {| v1alpha1.Name := name; v1alpha1.PodIP := ip |}.

Definition nginx (pods : slice.t v1alpha1.NginxPod) : v1alpha1.Nginx :=
  {| v1alpha1.ObjectMeta := {| metav1.Name := "web"; metav1.Namespace := "default" |};
     v1alpha1.Spec := "";
     v1alpha1.Status := {| v1alpha1.Pods := pods |} |}.

Definition entry : logrus.Entry := {| logrus.Data := [] |}.

Definition handler : Handler := NewHandler {| logrus.LoggerLevel := logrus.DebugLevel |}.

Definition world {Store} (s : Store) : World Store := mkWorld s [] [].

Definition conflict : error :=
  StatusError metav1.StatusReasonAlreadyExists "already exists".

Definition refused : error := StatusError "Forbidden" "forbidden".

Definition timeout : error := errorString "context deadline exceeded".

Definition update_event (n : v1alpha1.Nginx) : sdk.Event :=
  {| sdk.Object := runtime.ONginx n; sdk.Deleted := false |}.

Definition delete_event (n : v1alpha1.Nginx) : sdk.Event :=
  {| sdk.Object := runtime.ONginx n; sdk.Deleted := true |}.

Definition podA : corev1.Pod := pod "a" "10.0.0.1".
Definition podB : corev1.Pod := pod "b" "10.0.0.2".
Definition a : v1alpha1.NginxPod := npod "a" "10.0.0.1".
Definition b : v1alpha1.NginxPod := npod "b" "10.0.0.2".

(** a client whose every call succeeds, and whose list holds [items] *)
Definition ok (items : list corev1.Pod) : canned.Answers :=
  {| canned.onCreate := fun _ => None;
     canned.onGet := fun _ => None;
     canned.onUpdate := fun _ => None;
     canned.onList := (items, None) |}.

(** a client whose list call times out *)
Definition list_fails : canned.Answers :=
  {| canned.onCreate := fun _ => None;
     canned.onGet := fun _ => None;
     canned.onUpdate := fun _ => None;
     canned.onList := ([], Some timeout) |}.

(** a client that finds the deployment in the way, and answers [gerr] to
    the get *)
Definition deployment_exists (gerr : option error) : canned.Answers :=
  {| canned.onCreate := fun o =>
       match o with runtime.ODeployment _ => Some conflict | _ => None end;
     canned.onGet := fun _ => gerr;
     canned.onUpdate := fun _ => None;
     canned.onList := ([], None) |}.

(** a client that answers [e] to the create of the service *)
Definition service_answers (e : error) : canned.Answers :=
  {| canned.onCreate := fun o =>
       match o with runtime.OService _ => Some e | _ => None end;
     canned.onGet := fun _ => None;
     canned.onUpdate := fun _ => None;
     canned.onList := ([], None) |}.

(** a client that refuses every create *)
Definition create_refused : canned.Answers :=
  {| canned.onCreate := fun _ => Some refused;
     canned.onGet := fun _ => None;
     canned.onUpdate := fun _ => None;
     canned.onList := ([], None) |}.

(** a client that lists [items] and whose update times out *)
Definition update_fails (items : list corev1.Pod) : canned.Answers :=
  {| canned.onCreate := fun _ => None;
     canned.onGet := fun _ => None;
     canned.onUpdate := fun _ => Some timeout;
     canned.onList := (items, None) |}.

(** a client whose list call is refused by the API server *)
Definition list_refused : canned.Answers :=
  {| canned.onCreate := fun _ => None;
     canned.onGet := fun _ => None;
     canned.onUpdate := fun _ => None;
     canned.onList := ([], Some refused) |}.

(** an event for an object that is not an Nginx resource *)
Definition pod_event : sdk.Event :=
  {| sdk.Object := runtime.OPod podA; sdk.Deleted := false |}.

(** the store in memory selects every pod of the namespace *)
Definition every_pod (opts : metav1.ListOptions) (p : corev1.Pod) : bool := true.

(** a cluster with the resource, no status yet, and its two pods *)
Definition cluster : memstore.Store :=
  <[memstore.key_of (runtime.ONginx (nginx None)) := runtime.ONginx (nginx None)]>
    (<[memstore.key_of (runtime.OPod podB) := runtime.OPod podB]>
       (<[memstore.key_of (runtime.OPod podA) := runtime.OPod podA]> ∅)).

End sample.

(** * Properties *)

(** ** The order of names *)

Lemma Ascii_compare_le_trans (a b c : Ascii.ascii) :
  Ascii.compare a b <> Gt -> Ascii.compare b c <> Gt -> Ascii.compare a c <> Gt.
Proof.
  unfold Ascii.compare.
  rewrite !N.compare_le_iff. apply N.le_trans.
Qed.

Lemma String_compare_le_trans (s1 s2 s3 : string) :
  String.compare s1 s2 <> Gt -> String.compare s2 s3 <> Gt ->
  String.compare s1 s3 <> Gt.
Proof.
  revert s2 s3.
  induction s1 as [|a s1 IH]; intros [|b s2] [|c s3]; simpl; try congruence.
  destruct (Ascii.compare a b) eqn:Hab; try congruence.
  - apply Ascii.compare_eq_iff in Hab. subst b.
    destruct (Ascii.compare a c) eqn:Hac; try congruence.
    apply IH.
  - intros _.
    destruct (Ascii.compare b c) eqn:Hbc; try congruence.
    + apply Ascii.compare_eq_iff in Hbc. subst c. now rewrite Hab.
    + intros _.
      assert (Hle : Ascii.compare a c <> Gt).
      { apply (Ascii_compare_le_trans a b c); congruence. }
      destruct (Ascii.compare a c) eqn:Hac; try congruence.
      apply Ascii.compare_eq_iff in Hac. subst c.
      rewrite Ascii.compare_antisym, Hab in Hbc. discriminate.
Qed.

Lemma ltb_false_leb (s1 s2 : string) :
  String.ltb s2 s1 = false <-> String.leb s1 s2 = true.
Proof.
  unfold String.ltb, String.leb.
  rewrite (String.compare_antisym s1 s2).
  destruct (String.compare s2 s1); simpl; intuition congruence.
Qed.

Lemma leb_compare (s1 s2 : string) :
  String.leb s1 s2 = true <-> String.compare s1 s2 <> Gt.
Proof.
  unfold String.leb. destruct (String.compare s1 s2); intuition congruence.
Qed.

Lemma le_of_less_Name (a b : v1alpha1.NginxPod) :
  sort.le_of less_Name a b <-> Name_le a b.
Proof. unfold sort.le_of, less_Name, Name_le. apply ltb_false_leb. Qed.

#[local] Instance Name_le_trans : Transitive Name_le.
Proof.
  intros a b c. unfold Name_le. rewrite !leb_compare.
  apply String_compare_le_trans.
Qed.

#[local] Instance Name_le_total : Total Name_le.
Proof. intros a b. unfold Name_le. apply String.leb_total. Qed.

#[local] Instance le_of_less_Name_trans : Transitive (sort.le_of less_Name).
Proof.
  intros a b c. rewrite !le_of_less_Name. apply Name_le_trans.
Qed.

#[local] Instance le_of_less_Name_total : Total (sort.le_of less_Name).
Proof.
  intros a b. rewrite !le_of_less_Name. apply Name_le_total.
Qed.

(** ** Sorting a slice *)

Lemma NoDup_fmap_eq {A B} (f : A -> B) (l : list A) (x y : A) :
  NoDup (map f l) -> x ∈ l -> y ∈ l -> f x = f y -> x = y.
Proof.
  induction l as [|a l IH]; simpl; intros Hnd Hx Hy Hf.
  - by apply elem_of_nil in Hx.
  - apply NoDup_cons in Hnd as [Ha Hnd].
    apply elem_of_cons in Hx as [->|Hx]; apply elem_of_cons in Hy as [->|Hy].
    + done.
    + destruct Ha. rewrite Hf. by apply (list_elem_of_fmap_2 f).
    + destruct Ha. rewrite <- Hf. by apply (list_elem_of_fmap_2 f).
    + by apply IH.
Qed.

Lemma StronglySorted_weaken {A} (R R' : relation A) (l : list A) :
  (forall a b, R a b -> R' a b) -> StronglySorted R l -> StronglySorted R' l.
Proof.
  intros HR. induction 1 as [|a l Hl IH Ha]; constructor; [done|].
  eapply Forall_impl; [exact Ha | auto].
Qed.

Section Sorting.

Context {sorter : sort.Sorter}.

Lemma Slice_sorted_by_Name (x : slice.t v1alpha1.NginxPod) :
  sorted_by_Name (sort.Slice x less_Name).
Proof.
  destruct x as [l|]; unfold sorted_by_Name; simpl; [|constructor].
  eapply StronglySorted_weaken; [apply le_of_less_Name|].
  apply sort.sorted_of_StronglySorted; apply _.
Qed.

Lemma Slice_Permutation {A} (x : slice.t A) (less : A -> A -> bool) :
  slice.elems (sort.Slice x less) ≡ₚ slice.elems x.
Proof.
  destruct x as [l|]; simpl; [apply sort.sorted_of_Permutation | done].
Qed.

Lemma Slice_is_nil {A} (x : slice.t A) (less : A -> A -> bool) :
  slice.is_nil (sort.Slice x less) = slice.is_nil x.
Proof. by destruct x. Qed.

Lemma Slice_len {A} (x : slice.t A) (less : A -> A -> bool) :
  slice.len (sort.Slice x less) = slice.len x.
Proof.
  destruct x as [l|]; simpl; [|done].
  apply Permutation_length, sort.sorted_of_Permutation.
Qed.

Lemma Slice_empty {A} (less : A -> A -> bool) :
  sort.Slice (Some []) less = Some [].
Proof.
  simpl. f_equal. apply Permutation_nil_r, sort.sorted_of_Permutation.
Qed.

End Sorting.

(** ** Deep equality *)

Lemma DeepEqual_NginxPod_eq (a b : v1alpha1.NginxPod) :
  reflect.DeepEqual_NginxPod a b = true <-> a = b.
Proof.
  unfold reflect.DeepEqual_NginxPod.
  rewrite andb_true_iff, !String.eqb_eq.
  destruct a, b; simpl. split; [intros [-> ->]; done | intros [= -> ->]; done].
Qed.

Lemma DeepEqual_elems_eq (l1 l2 : list v1alpha1.NginxPod) :
  reflect.DeepEqual_elems l1 l2 = true <-> l1 = l2.
Proof.
  revert l2. induction l1 as [|a l1 IH]; intros [|b l2]; simpl; try done.
  rewrite andb_true_iff, DeepEqual_NginxPod_eq, IH.
  split; [intros [-> ->]; done | intros [= -> ->]; done].
Qed.

(** [reflect.DeepEqual] holds of two slices exactly when they are the same
    slice value: nil with nil, and a non-nil slice with a non-nil slice of
    the same elements. *)
Lemma DeepEqual_eq (x y : slice.t v1alpha1.NginxPod) :
  reflect.DeepEqual x y = true <-> x = y.
Proof.
  unfold reflect.DeepEqual.
  destruct x as [l1|], y as [l2|]; simpl; try done.
  - destruct (Nat.eqb_spec (length l1) (length l2)) as [Hlen|Hlen]; simpl.
    + rewrite DeepEqual_elems_eq. split; congruence.
    + split; [done | intros [= ->]; done].
Qed.

(** The same, in the words of the comparison: both nil or both non-nil, the
    same length, and at every index the same [Name] and the same [PodIP]. *)
Lemma DeepEqual_fields (x y : slice.t v1alpha1.NginxPod) :
  reflect.DeepEqual x y = true <->
  slice.is_nil x = slice.is_nil y
  /\ slice.len x = slice.len y
  /\ forall i a b, slice.elems x !! i = Some a -> slice.elems y !! i = Some b ->
       v1alpha1.Name a = v1alpha1.Name b /\ v1alpha1.PodIP a = v1alpha1.PodIP b.
Proof.
  rewrite DeepEqual_eq. split.
  - intros ->. split_and!; try done. intros i a b Ha Hb.
    rewrite Ha in Hb. by injection Hb as ->.
  - intros (Hnil & Hlen & Hel).
    assert (slice.elems x = slice.elems y) as Heq.
    { apply list_eq_same_length with (slice.len x).
      - rewrite Hlen. by destruct y.
      - by destruct x.
      - intros i a b _ Ha Hb. destruct (Hel i a b Ha Hb) as [Hn Hip].
        destruct a, b; simpl in *; congruence. }
    destruct x, y; simpl in *; congruence.
Qed.

(** ** Running the monad *)

Lemma issued_app {Store} (w : World Store) (s : Store) (cs : list sdk.Call)
    (ls : list logrus.Line) :
  issued w (mkWorld s (calls w ++ cs) ls) = cs.
Proof. unfold issued. simpl. apply drop_app_length. Qed.

Lemma issued_same {Store} (w : World Store) (s : Store) (ls : list logrus.Line) :
  issued w (mkWorld s (calls w) ls) = [].
Proof. unfold issued. simpl. apply drop_all. Qed.

Lemma observed_snoc (items : list corev1.Pod) (l : list v1alpha1.NginxPod) :
  fold_left (fun pods p => slice.append pods (NginxPod_of p)) items (Some l) =
  Some (l ++ map NginxPod_of items).
Proof.
  revert l. induction items as [|p items IH]; intros l; simpl.
  - by rewrite app_nil_r.
  - unfold slice.append at 2. simpl. rewrite IH. by rewrite <- app_assoc.
Qed.

(** The observed list is nil when no pod is listed, and otherwise holds the
    name and IP of each pod, in the order of the list. *)
Lemma observed_eq (items : list corev1.Pod) :
  observed items =
  match items with
  | [] => slice.nil
  | _ => Some (map NginxPod_of items)
  end.
Proof.
  unfold observed. destruct items as [|p items]; simpl; [done|].
  unfold slice.append at 2. simpl. apply observed_snoc.
Qed.

(** ** The status refresh *)

Section Refresh.

Context {Store : Type} {client : sdk.Client Store}.
Context {sorter : sort.Sorter} {builders : k8s.Builders}.

Implicit Types (event : sdk.Event) (nginx : v1alpha1.Nginx) (lg : logrus.Entry).
Implicit Types (w : World Store).

(** What [refreshStatus] does once the list call has succeeded. *)
Lemma refreshStatus_listed event nginx lg w items s1 :
  sdk.Deleted event = false ->
  sdk.client_List (metav1.Namespace (v1alpha1.ObjectMeta nginx))
    pods_TypeMeta (pods_ListOptions nginx) (store w) = ((items, None), s1) ->
  let fresh := sort.Slice (observed items) less_Name in
  let stored := sort.Slice (v1alpha1.Pods (v1alpha1.Status nginx)) less_Name in
  refreshStatus event nginx lg w =
  if reflect.DeepEqual fresh stored then
    ((v1alpha1.set_Status_Pods nginx stored, None),
     mkWorld s1 (calls w ++ [list_pods nginx]) (logs w))
  else
    let nginx' := v1alpha1.set_Status_Pods nginx fresh in
    let (err, s2) := sdk.client_Update (runtime.ONginx nginx') s1 in
    ((nginx', fmt.Errorf "failed to update nginx status: " <$> err),
     mkWorld s2 (calls w ++ [list_pods nginx; sdk.CallUpdate (runtime.ONginx nginx')])
             (logs w)).
Proof.
  intros Hdel Hlist fresh stored.
  unfold refreshStatus. rewrite Hdel.
  unfold bind, sdk_List, call. fold pods_TypeMeta. fold (pods_ListOptions nginx).
  rewrite Hlist. simpl. fold fresh stored.
  destruct (reflect.DeepEqual fresh stored); simpl; [done|].
  unfold sdk_Update, call, bind, ret. simpl.
  destruct (sdk.client_Update _ s1) as [[e|] s2]; simpl;
    by rewrite <- app_assoc.
Qed.

(** C1 (amended). When the list call of a status refresh (on a notification
    that is not a deletion) succeeds, the observed list and the stored list
    are both sorted by name and compared by deep equality.  The stored list
    is replaced by the observed one, and the status written, if and only if
    the two sorted lists are not deeply equal; when they are deeply equal,
    the list call is the only call and the store is as the list call left
    it; and every list written is sorted by name.  Deep equality asks more
    than the same entries (the same length, the same Name and PodIP at every
    index): the two lists must also be both nil or both non-nil, so a nil
    list and an empty list that is not nil differ. *)
Theorem refreshStatus_writes_iff_differ event nginx lg w items s1 :
  sdk.Deleted event = false ->
  sdk.client_List (metav1.Namespace (v1alpha1.ObjectMeta nginx))
    pods_TypeMeta (pods_ListOptions nginx) (store w) = ((items, None), s1) ->
  let fresh := sort.Slice (observed items) less_Name in
  let stored := sort.Slice (v1alpha1.Pods (v1alpha1.Status nginx)) less_Name in
  exists nginx' err w',
    refreshStatus event nginx lg w = ((nginx', err), w')
    /\ sorted_by_Name fresh /\ sorted_by_Name stored
    /\ (reflect.DeepEqual fresh stored = true <-> fresh = stored)
    /\ (fresh = stored ->
        nginx' = v1alpha1.set_Status_Pods nginx stored /\ err = None
        /\ issued w w' = [list_pods nginx] /\ store w' = s1)
    /\ (fresh <> stored ->
        nginx' = v1alpha1.set_Status_Pods nginx fresh
        /\ issued w w' = [list_pods nginx; sdk.CallUpdate (runtime.ONginx nginx')]
        /\ (err, store w') =
           (let (e, s2) := sdk.client_Update (runtime.ONginx nginx') s1 in
            (fmt.Errorf "failed to update nginx status: " <$> e, s2)))
    /\ (status_writes (issued w w') <> [] <-> fresh <> stored)
    /\ Forall (fun n => sorted_by_Name (v1alpha1.Pods (v1alpha1.Status n)))
              (status_writes (issued w w'))
    /\ (fresh = stored <->
        slice.is_nil fresh = slice.is_nil stored /\ same_entries fresh stored).
Proof.
  intros Hdel Hlist fresh stored.
  pose proof (refreshStatus_listed event nginx lg w items s1 Hdel Hlist) as Hrun.
  simpl in Hrun. fold fresh stored in Hrun.
  pose proof (DeepEqual_eq fresh stored) as Heq.
  assert (fresh = stored <->
          slice.is_nil fresh = slice.is_nil stored /\ same_entries fresh stored)
    as Hentries.
  { rewrite <- DeepEqual_eq. apply DeepEqual_fields. }
  assert (Hfresh : sorted_by_Name fresh) by apply Slice_sorted_by_Name.
  assert (Hstored : sorted_by_Name stored) by apply Slice_sorted_by_Name.
  destruct (reflect.DeepEqual fresh stored) eqn:Hde.
  - assert (fresh = stored) as Hsame by (by apply Heq).
    eexists _, _, _. split; [exact Hrun|].
    rewrite issued_app. simpl. by split_and!.
  - assert (fresh <> stored) as Hne.
    { intros Hsame. apply Heq in Hsame. congruence. }
    destruct (sdk.client_Update
                (runtime.ONginx (v1alpha1.set_Status_Pods nginx fresh)) s1)
      as [e s2] eqn:Hup.
    eexists _, _, _. split; [exact Hrun|].
    rewrite issued_app. simpl. split_and!; try done.
    + intros _. split_and!; try done. by rewrite Hup.
    + repeat constructor. exact Hfresh.
Qed.

(** What [refreshStatus] does when the list call fails. *)
Lemma refreshStatus_list_failed event nginx lg w items cause s1 :
  sdk.Deleted event = false ->
  sdk.client_List (metav1.Namespace (v1alpha1.ObjectMeta nginx))
    pods_TypeMeta (pods_ListOptions nginx) (store w) = ((items, Some cause), s1) ->
  refreshStatus event nginx lg w =
    ((nginx, Some (fmt.Errorf "failed to list pods: " cause)),
     mkWorld s1 (calls w ++ [list_pods nginx]) (logs w)).
Proof.
  intros Hdel Hlist.
  unfold refreshStatus. rewrite Hdel.
  unfold bind, sdk_List, call. fold pods_TypeMeta. fold (pods_ListOptions nginx).
  by rewrite Hlist.
Qed.

(** C7. When the list call of a status refresh fails, [refreshStatus]
    returns an error whose text is "failed to list pods: " followed by the
    text of the cause; the resource in memory is as it was, the list call is
    the only call, and no status is written. *)
Theorem refreshStatus_list_failure event nginx lg w items cause s1 :
  sdk.Deleted event = false ->
  sdk.client_List (metav1.Namespace (v1alpha1.ObjectMeta nginx))
    pods_TypeMeta (pods_ListOptions nginx) (store w) = ((items, Some cause), s1) ->
  exists w',
    refreshStatus event nginx lg w =
      ((nginx, Some (errorString ("failed to list pods: " +:+ Error cause))), w')
    /\ issued w w' = [list_pods nginx]
    /\ status_writes (issued w w') = []
    /\ Forall (fun c => is_Update c = false) (issued w w')
    /\ store w' = s1.
Proof.
  intros Hdel Hlist.
  eexists. split.
  - by apply (refreshStatus_list_failed event nginx lg w items cause s1).
  - rewrite issued_app. split_and!; try done. by repeat constructor.
Qed.

(** C9. When the list call succeeds with no pod, the observed list is nil;
    deep equality tells nil from an empty list that is not nil, though both
    have length zero; so with a stored list that is empty and not nil,
    [refreshStatus] writes the status, with nil in place of the stored
    list. *)
Theorem refreshStatus_nil_replaces_empty event nginx lg w s1 :
  sdk.Deleted event = false ->
  sdk.client_List (metav1.Namespace (v1alpha1.ObjectMeta nginx))
    pods_TypeMeta (pods_ListOptions nginx) (store w) = (([], None), s1) ->
  v1alpha1.Pods (v1alpha1.Status nginx) = Some [] ->
  observed [] = slice.nil
  /\ reflect.DeepEqual slice.nil (Some []) = false
  /\ slice.len (@slice.nil v1alpha1.NginxPod) = slice.len (Some (@nil v1alpha1.NginxPod))
  /\ exists err w',
      let nginx' := v1alpha1.set_Status_Pods nginx slice.nil in
      refreshStatus event nginx lg w = ((nginx', err), w')
      /\ issued w w' = [list_pods nginx; sdk.CallUpdate (runtime.ONginx nginx')]
      /\ status_writes (issued w w') = [nginx'].
Proof.
  intros Hdel Hlist Hstored.
  split_and!; try done.
  pose proof (refreshStatus_listed event nginx lg w [] s1 Hdel Hlist) as Hrun.
  simpl in Hrun. rewrite Hstored, Slice_empty in Hrun.
  change (reflect.DeepEqual (sort.Slice (observed []) less_Name) (Some []))
    with false in Hrun.
  change (sort.Slice (observed []) less_Name) with (@slice.nil v1alpha1.NginxPod) in Hrun.
  destruct (sdk.client_Update _ s1) as [e s2].
  eexists _, _. simpl. split; [exact Hrun|].
  by rewrite issued_app.
Qed.

(** C10. A status refresh (on a notification that is not a deletion) that
    returns without error leaves the list of the resource in memory sorted
    by name; when it wrote no status, that list is the stored list itself,
    sorted. *)
Theorem refreshStatus_leaves_sorted event nginx lg w nginx' w' :
  sdk.Deleted event = false ->
  refreshStatus event nginx lg w = ((nginx', None), w') ->
  sorted_by_Name (v1alpha1.Pods (v1alpha1.Status nginx'))
  /\ (status_writes (issued w w') = [] ->
      v1alpha1.Pods (v1alpha1.Status nginx') =
        sort.Slice (v1alpha1.Pods (v1alpha1.Status nginx)) less_Name
      /\ slice.elems (v1alpha1.Pods (v1alpha1.Status nginx'))
           ≡ₚ slice.elems (v1alpha1.Pods (v1alpha1.Status nginx))).
Proof.
  intros Hdel Hrun.
  destruct (sdk.client_List (metav1.Namespace (v1alpha1.ObjectMeta nginx))
              pods_TypeMeta (pods_ListOptions nginx) (store w))
    as [[items [cause|]] s1] eqn:Hlist.
  - rewrite (refreshStatus_list_failed event nginx lg w items cause s1 Hdel Hlist)
      in Hrun.
    discriminate.
  - rewrite (refreshStatus_listed event nginx lg w items s1 Hdel Hlist) in Hrun.
    simpl in Hrun.
    destruct (reflect.DeepEqual _ _).
    + injection Hrun as <- <-. simpl. split.
      * apply Slice_sorted_by_Name.
      * intros _. split; [done | apply Slice_Permutation].
    + destruct (sdk.client_Update _ s1) as [[e|] s2]; [discriminate|].
      injection Hrun as <- <-. simpl. split.
      * apply Slice_sorted_by_Name.
      * rewrite issued_app. simpl. discriminate.
Qed.

(** On a deletion, [refreshStatus] logs one line and returns: no call. *)
Lemma refreshStatus_deleted event nginx lg w :
  sdk.Deleted event = true ->
  refreshStatus event nginx lg w =
    ((nginx, None),
     mkWorld (store w) (calls w)
       (logs w ++ [logrus.Build_Line logrus.DebugLevel (logrus.Data lg)
                     "nginx deleted, skipping status update"])).
Proof. intros Hdel. unfold refreshStatus. by rewrite Hdel. Qed.

(** A status refresh that is not skipped always lists the pods first. *)
Lemma refreshStatus_lists event nginx lg w :
  sdk.Deleted event = false ->
  exists cs, issued w (refreshStatus event nginx lg w).2 = list_pods nginx :: cs.
Proof.
  intros Hdel.
  destruct (sdk.client_List (metav1.Namespace (v1alpha1.ObjectMeta nginx))
              pods_TypeMeta (pods_ListOptions nginx) (store w))
    as [[items [cause|]] s1] eqn:Hlist.
  - rewrite (refreshStatus_list_failed event nginx lg w items cause s1 Hdel Hlist).
    simpl. rewrite issued_app. by eexists.
  - rewrite (refreshStatus_listed event nginx lg w items s1 Hdel Hlist). simpl.
    destruct (reflect.DeepEqual _ _); simpl.
    + rewrite issued_app. by eexists.
    + destruct (sdk.client_Update _ s1) as [e s2]. simpl.
      rewrite issued_app. by eexists.
Qed.

End Refresh.

(** ** The dependent resources *)

Section Reconcile.

Context {Store : Type} {client : sdk.Client Store}.
Context {sorter : sort.Sorter} {builders : k8s.Builders}.

Implicit Types (event : sdk.Event) (nginx : v1alpha1.Nginx) (lg : logrus.Entry).
Implicit Types (w : World Store).

Lemma reconcileDeployment_created nginx lg w s1 :
  sdk.client_Create (deployment_of nginx) (store w) = (None, s1) ->
  reconcileDeployment nginx lg w =
    (None, mkWorld s1 (calls w ++ [sdk.CallCreate (deployment_of nginx)]) (logs w)).
Proof.
  intros Hc. unfold reconcileDeployment, bind, sdk_Create, call.
  fold (deployment_of nginx). by rewrite Hc.
Qed.

Lemma reconcileDeployment_create_failed nginx lg w e s1 :
  sdk.client_Create (deployment_of nginx) (store w) = (Some e, s1) ->
  errors.IsAlreadyExists (Some e) = false ->
  reconcileDeployment nginx lg w =
    (Some e,
     mkWorld s1 (calls w ++ [sdk.CallCreate (deployment_of nginx)])
       (logs w ++ [line logrus.ErrorLevel lg ("Failed to create deployment: " +:+ Error e)])).
Proof.
  intros Hc Hae. unfold reconcileDeployment, bind, sdk_Create, call.
  fold (deployment_of nginx). rewrite Hc. simpl. by rewrite Hae.
Qed.

Lemma reconcileDeployment_exists nginx lg w e s1 d' gerr s2 :
  sdk.client_Create (deployment_of nginx) (store w) = (Some e, s1) ->
  errors.IsAlreadyExists (Some e) = true ->
  sdk.client_Get (deployment_of nginx) s1 = ((d', gerr), s2) ->
  reconcileDeployment nginx lg w =
    (gerr,
     mkWorld s2
       (calls w ++ [sdk.CallCreate (deployment_of nginx);
                    sdk.CallGet (deployment_of nginx)])
       (logs w ++
        [match gerr with
         | Some g => line logrus.ErrorLevel lg ("Failed to retrieve deployment: " +:+ Error g)
         | None => line logrus.DebugLevel lg "nothing changed"
         end])).
Proof.
  intros Hc Hae Hg. unfold reconcileDeployment, bind, sdk_Create, sdk_Get, call.
  fold (deployment_of nginx). rewrite Hc. simpl. rewrite Hae. simpl.
  rewrite Hg. simpl. rewrite <- app_assoc. by destruct gerr.
Qed.

Lemma reconcileService_created nginx lg w s1 :
  sdk.client_Create (service_of nginx) (store w) = (None, s1) ->
  reconcileService nginx lg w =
    (None, mkWorld s1 (calls w ++ [sdk.CallCreate (service_of nginx)]) (logs w)).
Proof.
  intros Hc. unfold reconcileService, bind, sdk_Create, call.
  fold (service_of nginx). rewrite Hc. simpl. by destruct w.
Qed.

Lemma reconcileService_exists nginx lg w e s1 :
  sdk.client_Create (service_of nginx) (store w) = (Some e, s1) ->
  errors.IsAlreadyExists (Some e) = true ->
  reconcileService nginx lg w =
    (None, mkWorld s1 (calls w ++ [sdk.CallCreate (service_of nginx)]) (logs w)).
Proof.
  intros Hc Hae. unfold reconcileService, bind, sdk_Create, call.
  fold (service_of nginx). rewrite Hc. simpl. by rewrite Hae.
Qed.

Lemma reconcileService_create_failed nginx lg w e s1 :
  sdk.client_Create (service_of nginx) (store w) = (Some e, s1) ->
  errors.IsAlreadyExists (Some e) = false ->
  reconcileService nginx lg w =
    (Some e,
     mkWorld s1 (calls w ++ [sdk.CallCreate (service_of nginx)])
       (logs w ++ [line logrus.ErrorLevel lg ("Failed to create service: " +:+ Error e)])).
Proof.
  intros Hc Hae. unfold reconcileService, bind, sdk_Create, call.
  fold (service_of nginx). rewrite Hc. simpl. by rewrite Hae.
Qed.

(** [reconcile], on a notification that is not a deletion: the deployment,
    then, if that went well, the service. *)
Lemma reconcile_steps event nginx lg w :
  sdk.Deleted event = false ->
  reconcile event nginx lg w =
    let (err, w1) := reconcileDeployment nginx lg w in
    match err with
    | Some e => (Some e, w1)
    | None => reconcileService nginx lg w1
    end.
Proof.
  intros Hdel. unfold reconcile, bind. rewrite Hdel.
  destruct (reconcileDeployment nginx lg w) as [[e|] w1]; simpl; [done|].
  by destruct (reconcileService nginx lg w1) as [[e|] w2].
Qed.

Lemma reconcile_deleted event nginx lg w :
  sdk.Deleted event = true ->
  reconcile event nginx lg w =
    (None, mkWorld (store w) (calls w)
             (logs w ++ [line logrus.InfoLevel lg "object deleted"])).
Proof. intros Hdel. unfold reconcile. by rewrite Hdel. Qed.

(** C4. When the create of the deployment answers "already exists",
    [reconcileDeployment] gets the deployment and returns what the get
    returned: its error if it failed, success if it succeeded.  The calls
    are the create and the get; no update is issued. *)
Theorem reconcileDeployment_already_exists nginx lg w e s1 d' gerr s2 :
  sdk.client_Create (deployment_of nginx) (store w) = (Some e, s1) ->
  errors.IsAlreadyExists (Some e) = true ->
  sdk.client_Get (deployment_of nginx) s1 = ((d', gerr), s2) ->
  exists w',
    reconcileDeployment nginx lg w = (gerr, w')
    /\ issued w w' = [sdk.CallCreate (deployment_of nginx);
                      sdk.CallGet (deployment_of nginx)]
    /\ Forall (fun c => is_Update c = false) (issued w w')
    /\ store w' = s2
    /\ (gerr = None -> reconcileDeployment nginx lg w = (None, w')).
Proof.
  intros Hc Hae Hg. eexists. split.
  - by apply (reconcileDeployment_exists nginx lg w e s1 d' gerr s2).
  - rewrite issued_app. split_and!; try done.
    + by repeat constructor.
    + intros ->. by apply (reconcileDeployment_exists nginx lg w e s1 d' None s2).
Qed.

(** [reconcileDeployment] never issues an update, whatever the client
    answers: its calls are a create, or a create and a get. *)
Lemma reconcileDeployment_calls nginx lg w :
  let w' := (reconcileDeployment nginx lg w).2 in
  issued w w' = [sdk.CallCreate (deployment_of nginx)]
  \/ issued w w' = [sdk.CallCreate (deployment_of nginx);
                    sdk.CallGet (deployment_of nginx)].
Proof.
  destruct (sdk.client_Create (deployment_of nginx) (store w)) as [[e|] s1] eqn:Hc.
  - destruct (errors.IsAlreadyExists (Some e)) eqn:Hae.
    + destruct (sdk.client_Get (deployment_of nginx) s1) as [[d' gerr] s2] eqn:Hg.
      rewrite (reconcileDeployment_exists nginx lg w e s1 d' gerr s2 Hc Hae Hg).
      simpl. rewrite issued_app. by right.
    + rewrite (reconcileDeployment_create_failed nginx lg w e s1 Hc Hae).
      simpl. rewrite issued_app. by left.
  - rewrite (reconcileDeployment_created nginx lg w s1 Hc).
    simpl. rewrite issued_app. by left.
Qed.

(** C5. When the create of the service answers "already exists",
    [reconcileService] returns success at once: the create is its only
    call, no get and no update. *)
Theorem reconcileService_already_exists nginx lg w e s1 :
  sdk.client_Create (service_of nginx) (store w) = (Some e, s1) ->
  errors.IsAlreadyExists (Some e) = true ->
  exists w',
    reconcileService nginx lg w = (None, w')
    /\ issued w w' = [sdk.CallCreate (service_of nginx)]
    /\ store w' = s1
    /\ logs w' = logs w.
Proof.
  intros Hc Hae. eexists. split.
  - by apply (reconcileService_exists nginx lg w e s1).
  - by rewrite issued_app.
Qed.

Lemma reconcileService_calls nginx lg w :
  issued w (reconcileService nginx lg w).2 = [sdk.CallCreate (service_of nginx)].
Proof.
  destruct (sdk.client_Create (service_of nginx) (store w)) as [[e|] s1] eqn:Hc.
  - destruct (errors.IsAlreadyExists (Some e)) eqn:Hae.
    + rewrite (reconcileService_exists nginx lg w e s1 Hc Hae).
      simpl. by rewrite issued_app.
    + rewrite (reconcileService_create_failed nginx lg w e s1 Hc Hae).
      simpl. by rewrite issued_app.
  - rewrite (reconcileService_created nginx lg w s1 Hc).
    simpl. by rewrite issued_app.
Qed.


End Reconcile.

(** ** The calls of the reconciliation *)

Section Calls.

Context {Store : Type} {client : sdk.Client Store}.
Context {sorter : sort.Sorter} {builders : k8s.Builders}.

Implicit Types (event : sdk.Event) (nginx : v1alpha1.Nginx) (lg : logrus.Entry).
Implicit Types (w : World Store).

Lemma issued_calls w w' cs :
  calls w' = calls w ++ cs -> issued w w' = cs.
Proof. intros Hc. unfold issued. rewrite Hc. apply drop_app_length. Qed.

Lemma reconcileDeployment_extends nginx lg w :
  exists cs, calls (reconcileDeployment nginx lg w).2 = calls w ++ cs
             /\ Forall (fun c => is_List c = false) cs.
Proof.
  destruct (sdk.client_Create (deployment_of nginx) (store w)) as [[e|] s1] eqn:Hc.
  - destruct (errors.IsAlreadyExists (Some e)) eqn:Hae.
    + destruct (sdk.client_Get (deployment_of nginx) s1) as [[d' gerr] s2] eqn:Hg.
      rewrite (reconcileDeployment_exists nginx lg w e s1 d' gerr s2 Hc Hae Hg).
      eexists. split; [done | by repeat constructor].
    + rewrite (reconcileDeployment_create_failed nginx lg w e s1 Hc Hae).
      eexists. split; [done | by repeat constructor].
  - rewrite (reconcileDeployment_created nginx lg w s1 Hc).
    eexists. split; [done | by repeat constructor].
Qed.

Lemma reconcileService_extends nginx lg w :
  exists cs, calls (reconcileService nginx lg w).2 = calls w ++ cs
             /\ Forall (fun c => is_List c = false) cs.
Proof.
  destruct (sdk.client_Create (service_of nginx) (store w)) as [[e|] s1] eqn:Hc.
  - destruct (errors.IsAlreadyExists (Some e)) eqn:Hae.
    + rewrite (reconcileService_exists nginx lg w e s1 Hc Hae).
      eexists. split; [done | by repeat constructor].
    + rewrite (reconcileService_create_failed nginx lg w e s1 Hc Hae).
      eexists. split; [done | by repeat constructor].
  - rewrite (reconcileService_created nginx lg w s1 Hc).
    eexists. split; [done | by repeat constructor].
Qed.

(** [reconcile] never lists: the list call belongs to the status refresh. *)
Lemma reconcile_never_lists event nginx lg w :
  Forall (fun c => is_List c = false) (issued w (reconcile event nginx lg w).2).
Proof.
  destruct (sdk.Deleted event) eqn:Hdel.
  - rewrite (reconcile_deleted event nginx lg w Hdel). simpl.
    rewrite issued_same. constructor.
  - rewrite (reconcile_steps event nginx lg w Hdel).
    destruct (reconcileDeployment_extends nginx lg w) as (cs1 & Hcs1 & Hno1).
    destruct (reconcileDeployment nginx lg w) as [[e|] w1]; simpl in *.
    + by rewrite (issued_calls w w1 cs1 Hcs1).
    + destruct (reconcileService_extends nginx lg w1) as (cs2 & Hcs2 & Hno2).
      rewrite (issued_calls w _ (cs1 ++ cs2)).
      * apply Forall_app. by split.
      * rewrite Hcs2, Hcs1. by rewrite app_assoc.
Qed.

(** [Handle] on a resource: a line of log, the reconciliation, and, if it
    went well, the status refresh. *)
Lemma Handle_steps (h : Handler) event o w :
  sdk.Object event = runtime.ONginx o ->
  Handle h event w =
    let lg := entry_of h o in
    let w0 := mkWorld (store w) (calls w)
                (logs w ++ [line logrus.DebugLevel lg
                              ("Handling event for object: " +:+ k8s.Sprint_plus_v o)]) in
    let (err, w1) := reconcile event o lg w0 in
    match err with
    | Some e => ((runtime.ONginx o, Some e), w1)
    | None =>
      let '((o', err'), w2) := refreshStatus event o lg w1 in
      ((runtime.ONginx o', err'), w2)
    end.
Proof.
  intros Hobj. unfold Handle. rewrite Hobj. unfold bind at 1. simpl.
  fold (entry_of h o). unfold bind at 1.
  destruct (reconcile event o (entry_of h o) _) as [[e|] w1]; simpl; [done|].
  unfold bind.
  by destruct (refreshStatus event o (entry_of h o) w1) as [[o' [e|]] w2].
Qed.

(** C2. On a notification of deletion for a resource, [Handle] returns
    success and issues no call: [reconcile] returns at once, [refreshStatus]
    returns before it lists the pods, and the store is untouched. *)
Theorem Handle_deleted (h : Handler) event o w :
  sdk.Object event = runtime.ONginx o ->
  sdk.Deleted event = true ->
  exists w',
    Handle h event w = ((runtime.ONginx o, None), w')
    /\ issued w w' = []
    /\ calls w' = calls w
    /\ store w' = store w
    /\ (forall lg w0, exists w1,
          reconcile event o lg w0 = (None, w1)
          /\ calls w1 = calls w0 /\ store w1 = store w0)
    /\ (forall lg w0, exists w1,
          refreshStatus event o lg w0 = ((o, None), w1)
          /\ calls w1 = calls w0 /\ store w1 = store w0).
Proof.
  intros Hobj Hdel. eexists. split.
  - rewrite (Handle_steps h event o w Hobj). simpl.
    rewrite reconcile_deleted by done.
    by rewrite refreshStatus_deleted by done.
  - simpl. rewrite issued_same. split_and!; try done.
    + intros lg w0. eexists. by rewrite reconcile_deleted by done.
    + intros lg w0. eexists. by rewrite refreshStatus_deleted by done.
Qed.

(** C3. On a notification for a resource that is not a deletion, [Handle]
    runs the reconciliation of the dependent resources first.  If it
    returns an error, [Handle] returns that error and stops there: the
    world is as the reconciliation left it and no list call was issued, so
    the status refresh, which always lists first, did not run.  If it
    succeeds, [Handle] runs the status refresh from there and returns what
    it returns. *)
Theorem Handle_sequences (h : Handler) event o w r w1 :
  sdk.Object event = runtime.ONginx o ->
  sdk.Deleted event = false ->
  let lg := entry_of h o in
  let w0 := mkWorld (store w) (calls w)
              (logs w ++ [line logrus.DebugLevel lg
                            ("Handling event for object: " +:+ k8s.Sprint_plus_v o)]) in
  reconcile event o lg w0 = (r, w1) ->
  match r with
  | Some e =>
    Handle h event w = ((runtime.ONginx o, Some e), w1)
    /\ Forall (fun c => is_List c = false) (issued w w1)
  | None =>
    exists o' err w2 cs,
      refreshStatus event o lg w1 = ((o', err), w2)
      /\ Handle h event w = ((runtime.ONginx o', err), w2)
      /\ issued w1 w2 = list_pods o :: cs
  end.
Proof.
  intros Hobj Hdel lg w0 Hrec.
  pose proof (Handle_steps h event o w Hobj) as Hsteps.
  simpl in Hsteps. fold lg in Hsteps. fold w0 in Hsteps. rewrite Hrec in Hsteps.
  destruct r as [e|].
  - split; [done|].
    pose proof (reconcile_never_lists event o lg w0) as Hno.
    by rewrite Hrec in Hno.
  - destruct (refreshStatus_lists event o lg w1 Hdel) as [cs Hcs].
    destruct (refreshStatus event o lg w1) as [[o' err] w2].
    by exists o', err, w2, cs.
Qed.

End Calls.

(** ** Reconciling twice *)

Section Repeat.

Context {Store : Type} {client : sdk.Client Store} {builders : k8s.Builders}.
Context (present : Store -> runtime.Object -> Prop) {at_rest : AtRest client present}.

Implicit Types (event : sdk.Event) (nginx : v1alpha1.Nginx) (lg : logrus.Entry).
Implicit Types (w : World Store).

Lemma reconcileDeployment_ok_present nginx lg w w1 :
  reconcileDeployment nginx lg w = (None, w1) ->
  present (store w1) (deployment_of nginx)
  /\ forall o, present (store w) o -> present (store w1) o.
Proof.
  intros Hrun.
  destruct (sdk.client_Create (deployment_of nginx) (store w)) as [[e|] s1] eqn:Hc.
  - destruct (errors.IsAlreadyExists (Some e)) eqn:Hae.
    + destruct (create_exists_present _ _ _ _ Hc Hae) as [-> Hpres].
      destruct (get_present _ _ Hpres) as [d' Hg].
      rewrite (reconcileDeployment_exists nginx lg w e _ d' None _ Hc Hae Hg) in Hrun.
      injection Hrun as <-. simpl. by split.
    + rewrite (reconcileDeployment_create_failed nginx lg w e s1 Hc Hae) in Hrun.
      discriminate.
  - rewrite (reconcileDeployment_created nginx lg w s1 Hc) in Hrun.
    injection Hrun as <-. simpl. split.
    + by apply (create_ok_present _ _ _ Hc).
    + intros o. by apply (create_ok_keeps _ _ _ _ Hc).
Qed.

Lemma reconcileService_ok_present nginx lg w w1 :
  reconcileService nginx lg w = (None, w1) ->
  present (store w1) (service_of nginx)
  /\ forall o, present (store w) o -> present (store w1) o.
Proof.
  intros Hrun.
  destruct (sdk.client_Create (service_of nginx) (store w)) as [[e|] s1] eqn:Hc.
  - destruct (errors.IsAlreadyExists (Some e)) eqn:Hae.
    + destruct (create_exists_present _ _ _ _ Hc Hae) as [-> Hpres].
      rewrite (reconcileService_exists nginx lg w e _ Hc Hae) in Hrun.
      injection Hrun as <-. simpl. by split.
    + rewrite (reconcileService_create_failed nginx lg w e s1 Hc Hae) in Hrun.
      discriminate.
  - rewrite (reconcileService_created nginx lg w s1 Hc) in Hrun.
    injection Hrun as <-. simpl. split.
    + by apply (create_ok_present _ _ _ Hc).
    + intros o. by apply (create_ok_keeps _ _ _ _ Hc).
Qed.

(** After a reconciliation that went well, both dependent objects are in
    the store. *)
Lemma reconcile_ok_present event nginx lg w w1 :
  sdk.Deleted event = false ->
  reconcile event nginx lg w = (None, w1) ->
  present (store w1) (deployment_of nginx)
  /\ present (store w1) (service_of nginx).
Proof.
  intros Hdel Hrun. rewrite (reconcile_steps event nginx lg w Hdel) in Hrun.
  destruct (reconcileDeployment nginx lg w) as [[e|] wd] eqn:Hd; [discriminate|].
  destruct (reconcileDeployment_ok_present nginx lg w wd Hd) as [Hpd _].
  destruct (reconcileService_ok_present nginx lg wd w1 Hrun) as [Hps Hkeep].
  split; [by apply Hkeep | done].
Qed.

(** C6. Over a store at rest, when the reconciliation of the dependent
    resources (on a notification that is not a deletion) has succeeded,
    running it again for the same resource succeeds too and leaves the
    store as the first run left it: both creates answer "already exists",
    the deployment is fetched, and nothing is written. *)
Theorem reconcile_twice event nginx lg w w1 :
  sdk.Deleted event = false ->
  reconcile event nginx lg w = (None, w1) ->
  exists w2,
    reconcile event nginx lg w1 = (None, w2)
    /\ store w2 = store w1
    /\ issued w1 w2 = [sdk.CallCreate (deployment_of nginx);
                       sdk.CallGet (deployment_of nginx);
                       sdk.CallCreate (service_of nginx)]
    /\ (exists e, sdk.client_Create (deployment_of nginx) (store w1) = (Some e, store w1)
                  /\ errors.IsAlreadyExists (Some e) = true)
    /\ (exists e, sdk.client_Create (service_of nginx) (store w1) = (Some e, store w1)
                  /\ errors.IsAlreadyExists (Some e) = true).
Proof.
  intros Hdel Hrun.
  destruct (reconcile_ok_present event nginx lg w w1 Hdel Hrun) as [Hpd Hps].
  destruct (create_present _ _ Hpd) as (ed & Hcd & Haed).
  destruct (get_present _ _ Hpd) as (d' & Hgd).
  destruct (create_present _ _ Hps) as (es & Hcs & Haes).
  eexists. split.
  - rewrite (reconcile_steps event nginx lg w1 Hdel).
    rewrite (reconcileDeployment_exists nginx lg w1 ed _ d' None _ Hcd Haed Hgd).
    by apply (reconcileService_exists nginx lg _ es).
  - simpl. split_and!; try done.
    + apply issued_calls. simpl. by rewrite <- app_assoc.
    + by exists ed.
    + by exists es.
Qed.

End Repeat.

(** The store in memory is a store at rest: an object is present when its
    key is taken. *)
Lemma memstore_at_rest (selects : metav1.ListOptions -> corev1.Pod -> bool) :
  AtRest (memstore.client selects) (fun s o => is_Some (s !! memstore.key_of o)).
Proof.
  split; simpl; unfold memstore.create, memstore.get.
  - intros o s s' Hc. destruct (s !! memstore.key_of o); [discriminate|].
    injection Hc as <-. rewrite lookup_insert_eq. by eexists.
  - intros o o' s s' Hc Hp. destruct (s !! memstore.key_of o); [discriminate|].
    injection Hc as <-. rewrite lookup_insert_is_Some.
    destruct (decide (memstore.key_of o = memstore.key_of o')); auto.
  - intros o e s s' Hc _. destruct (s !! memstore.key_of o) eqn:Hl; [|discriminate].
    injection Hc as _ <-. split; [done | by eexists].
  - intros o s [o' Hl]. rewrite Hl. by eexists.
  - intros o s [o' Hl]. rewrite Hl. by eexists.
Qed.

(** ** More on the status refresh *)

Section RefreshMore.

Context {Store : Type} {client : sdk.Client Store}.
Context {sorter : sort.Sorter} {builders : k8s.Builders}.

Implicit Types (event : sdk.Event) (nginx : v1alpha1.Nginx) (lg : logrus.Entry).
Implicit Types (w : World Store).

(** X12. The loop over the listed pods gives one entry per pod, in the
    order of the list, with the pod's name and IP; the result is nil exactly
    when no pod is listed. *)
Theorem observed_projects (items : list corev1.Pod) :
  slice.elems (observed items) = map NginxPod_of items
  /\ slice.len (observed items) = length items
  /\ (observed items = slice.nil <-> items = []).
Proof.
  rewrite observed_eq. destruct items as [|p items]; simpl.
  - done.
  - rewrite length_map. split_and!; try done.
Qed.

(** Two lists with the same pods, no two of them with the same name, sort
    to the same list, whatever the sorter does with equal names. *)
Lemma sorted_of_unique (l1 l2 : list v1alpha1.NginxPod) :
  l1 ≡ₚ l2 -> NoDup (map v1alpha1.Name l2) ->
  sort.sorted_of less_Name l1 = sort.sorted_of less_Name l2.
Proof.
  intros Hperm Hnodup.
  apply (StronglySorted_unique_strong (sort.le_of less_Name)).
  - intros x1 x2 Hx1 Hx2 H12 H21.
    apply le_of_less_Name in H12, H21.
    apply (NoDup_fmap_eq v1alpha1.Name l2); [done | | | ].
    + rewrite sort.sorted_of_Permutation in Hx1. by rewrite <- Hperm.
    + by rewrite sort.sorted_of_Permutation in Hx2.
    + by apply String.leb_antisym.
  - apply sort.sorted_of_StronglySorted; apply _.
  - apply sort.sorted_of_StronglySorted; apply _.
  - rewrite !sort.sorted_of_Permutation. exact Hperm.
Qed.

(** X7. The order of the list call does not matter: when the pods listed
    are the stored pods in some order, no two stored pods share a name, and
    the stored list is nil exactly when no pod is listed, nothing is
    written. *)
Theorem refreshStatus_order_independent event nginx lg w items s1 :
  sdk.Deleted event = false ->
  sdk.client_List (metav1.Namespace (v1alpha1.ObjectMeta nginx))
    pods_TypeMeta (pods_ListOptions nginx) (store w) = ((items, None), s1) ->
  map NginxPod_of items ≡ₚ slice.elems (v1alpha1.Pods (v1alpha1.Status nginx)) ->
  NoDup (map v1alpha1.Name (slice.elems (v1alpha1.Pods (v1alpha1.Status nginx)))) ->
  (slice.is_nil (v1alpha1.Pods (v1alpha1.Status nginx)) = true <-> items = []) ->
  status_writes (issued w (refreshStatus event nginx lg w).2) = [].
Proof.
  intros Hdel Hlist Hperm Hnodup Hnil.
  rewrite (refreshStatus_listed event nginx lg w items s1 Hdel Hlist). simpl.
  rewrite observed_eq.
  destruct (v1alpha1.Pods (v1alpha1.Status nginx)) as [stored|]; simpl in *.
  - destruct items as [|p items].
    { destruct Hnil as [_ Hnil]. by specialize (Hnil eq_refl). }
    simpl.
    rewrite (sorted_of_unique (NginxPod_of p :: map NginxPod_of items) stored
               Hperm Hnodup).
    assert (reflect.DeepEqual (Some (sort.sorted_of less_Name stored))
              (Some (sort.sorted_of less_Name stored)) = true) as ->
      by by apply DeepEqual_eq.
    simpl. by rewrite issued_app.
  - destruct Hnil as [Hnil _]. rewrite (Hnil eq_refl). simpl.
    by rewrite issued_app.
Qed.

(** Once the list call has succeeded, the list in memory at the return is
    the observed list, sorted. *)
Lemma refreshStatus_listed_pods event nginx lg w items s1 :
  sdk.Deleted event = false ->
  sdk.client_List (metav1.Namespace (v1alpha1.ObjectMeta nginx))
    pods_TypeMeta (pods_ListOptions nginx) (store w) = ((items, None), s1) ->
  v1alpha1.Pods (v1alpha1.Status (refreshStatus event nginx lg w).1.1)
  = sort.Slice (observed items) less_Name.
Proof.
  intros Hdel Hlist.
  rewrite (refreshStatus_listed event nginx lg w items s1 Hdel Hlist). simpl.
  destruct (reflect.DeepEqual _ _) eqn:Hde; simpl.
  - symmetry. by apply DeepEqual_eq.
  - by destruct (sdk.client_Update _ s1) as [e s2].
Qed.

(** X8. Once the list call has succeeded, the list of the resource in
    memory at the return holds the listed pods, sorted by name: whether the
    status was written or not, and whether the write failed or not. *)
Theorem refreshStatus_in_memory event nginx lg w items s1 :
  sdk.Deleted event = false ->
  sdk.client_List (metav1.Namespace (v1alpha1.ObjectMeta nginx))
    pods_TypeMeta (pods_ListOptions nginx) (store w) = ((items, None), s1) ->
  let pods := v1alpha1.Pods (v1alpha1.Status (refreshStatus event nginx lg w).1.1) in
  pods = sort.Slice (observed items) less_Name
  /\ slice.elems pods ≡ₚ map NginxPod_of items
  /\ sorted_by_Name pods
  /\ (slice.is_nil pods = true <-> items = []).
Proof.
  intros Hdel Hlist. simpl.
  rewrite (refreshStatus_listed_pods event nginx lg w items s1 Hdel Hlist).
  split_and!.
  - done.
  - rewrite Slice_Permutation, observed_eq. by destruct items.
  - apply Slice_sorted_by_Name.
  - rewrite Slice_is_nil, observed_eq. by destruct items.
Qed.

(** X9. A status refresh that follows a status refresh, with the same pods
    listed and no two of them with the same name, writes nothing: the first
    left in memory what the second observes. *)
Theorem refreshStatus_second_run event nginx lg w items s1 nginx' err w' s2 :
  sdk.Deleted event = false ->
  sdk.client_List (metav1.Namespace (v1alpha1.ObjectMeta nginx))
    pods_TypeMeta (pods_ListOptions nginx) (store w) = ((items, None), s1) ->
  refreshStatus event nginx lg w = ((nginx', err), w') ->
  sdk.client_List (metav1.Namespace (v1alpha1.ObjectMeta nginx'))
    pods_TypeMeta (pods_ListOptions nginx') (store w') = ((items, None), s2) ->
  NoDup (map (fun p => metav1.Name (corev1.ObjectMeta p)) items) ->
  exists w'',
    refreshStatus event nginx' lg w' = ((nginx', None), w'')
    /\ issued w' w'' = [list_pods nginx']
    /\ status_writes (issued w' w'') = [].
Proof.
  intros Hdel Hlist Hrun Hlist' Hnodup.
  pose proof (refreshStatus_listed_pods event nginx lg w items s1 Hdel Hlist) as Hpods.
  rewrite Hrun in Hpods. simpl in Hpods.
  rewrite (refreshStatus_listed event nginx' lg w' items s2 Hdel Hlist'). simpl.
  rewrite Hpods.
  assert (sort.Slice (sort.Slice (observed items) less_Name) less_Name
          = sort.Slice (observed items) less_Name) as Hidem.
  { destruct (observed items) as [l|] eqn:Hobs; simpl; [|done].
    f_equal. apply sorted_of_unique; [apply sort.sorted_of_Permutation|].
    pose proof (observed_eq items) as Heq. rewrite Hobs in Heq.
    destruct items as [|p items]; [done|]. injection Heq as ->.
    change (NoDup (map v1alpha1.Name (map NginxPod_of (p :: items)))).
    rewrite map_map. exact Hnodup. }
  rewrite Hidem.
  assert (reflect.DeepEqual (sort.Slice (observed items) less_Name)
            (sort.Slice (observed items) less_Name) = true) as ->
    by by apply DeepEqual_eq.
  eexists. split.
  - f_equal. f_equal. destruct nginx' as [om sp [pods]]. simpl in *.
    by rewrite <- Hpods.
  - by rewrite issued_app.
Qed.

(** X6. When the list call has succeeded, the sorted lists differ and the
    update fails, [refreshStatus] returns an error whose text is "failed to
    update nginx status: " followed by the text of the cause; the list in
    memory has been replaced by the observed one all the same, and the
    update was tried once. *)
Theorem refreshStatus_update_failure event nginx lg w items s1 cause s2 :
  sdk.Deleted event = false ->
  sdk.client_List (metav1.Namespace (v1alpha1.ObjectMeta nginx))
    pods_TypeMeta (pods_ListOptions nginx) (store w) = ((items, None), s1) ->
  let fresh := sort.Slice (observed items) less_Name in
  let nginx' := v1alpha1.set_Status_Pods nginx fresh in
  fresh <> sort.Slice (v1alpha1.Pods (v1alpha1.Status nginx)) less_Name ->
  sdk.client_Update (runtime.ONginx nginx') s1 = (Some cause, s2) ->
  refreshStatus event nginx lg w =
    ((nginx', Some (errorString ("failed to update nginx status: " +:+ Error cause))),
     mkWorld s2 (calls w ++ [list_pods nginx; sdk.CallUpdate (runtime.ONginx nginx')])
       (logs w)).
Proof.
  intros Hdel Hlist fresh nginx' Hne Hup.
  rewrite (refreshStatus_listed event nginx lg w items s1 Hdel Hlist). simpl.
  fold fresh. fold nginx'.
  destruct (reflect.DeepEqual fresh _) eqn:Hde.
  - apply DeepEqual_eq in Hde. by destruct Hne.
  - by rewrite Hup.
Qed.

Lemma refreshStatus_keeps_identity_aux event nginx lg w :
  v1alpha1.ObjectMeta (refreshStatus event nginx lg w).1.1 = v1alpha1.ObjectMeta nginx
  /\ v1alpha1.Spec (refreshStatus event nginx lg w).1.1 = v1alpha1.Spec nginx.
Proof.
  destruct (sdk.Deleted event) eqn:Hdel.
  - by rewrite (refreshStatus_deleted event nginx lg w Hdel).
  - destruct (sdk.client_List (metav1.Namespace (v1alpha1.ObjectMeta nginx))
                pods_TypeMeta (pods_ListOptions nginx) (store w))
      as [[items [cause|]] s1] eqn:Hlist.
    + by rewrite (refreshStatus_list_failed event nginx lg w items cause s1 Hdel Hlist).
    + rewrite (refreshStatus_listed event nginx lg w items s1 Hdel Hlist). simpl.
      destruct (reflect.DeepEqual _ _); simpl; [done|].
      by destruct (sdk.client_Update _ s1) as [e s2].
Qed.

(** X10. [refreshStatus] writes to the list of pods of the resource and to
    nothing else of it: at the return the resource in memory has the
    metadata and the spec it came with, and so has every resource sent in
    an update, which is the resource in memory at the return. *)
Theorem refreshStatus_keeps_identity event nginx lg w :
  let nginx' := (refreshStatus event nginx lg w).1.1 in
  let w' := (refreshStatus event nginx lg w).2 in
  v1alpha1.ObjectMeta nginx' = v1alpha1.ObjectMeta nginx
  /\ v1alpha1.Spec nginx' = v1alpha1.Spec nginx
  /\ updates (issued w w') = runtime.ONginx <$> status_writes (issued w w')
  /\ Forall (fun n => n = nginx') (status_writes (issued w w'))
  /\ length (status_writes (issued w w')) <= 1.
Proof.
  simpl. destruct (sdk.Deleted event) eqn:Hdel.
  - rewrite (refreshStatus_deleted event nginx lg w Hdel). simpl.
    rewrite issued_same. simpl. split_and!; by try constructor.
  - destruct (sdk.client_List (metav1.Namespace (v1alpha1.ObjectMeta nginx))
                pods_TypeMeta (pods_ListOptions nginx) (store w))
      as [[items [cause|]] s1] eqn:Hlist.
    + rewrite (refreshStatus_list_failed event nginx lg w items cause s1 Hdel Hlist).
      simpl. rewrite issued_app. simpl. split_and!; by try constructor.
    + rewrite (refreshStatus_listed event nginx lg w items s1 Hdel Hlist). simpl.
      destruct (reflect.DeepEqual _ _); simpl.
      * rewrite issued_app. simpl. split_and!; by try constructor.
      * destruct (sdk.client_Update _ s1) as [e s2]. simpl.
        rewrite issued_app. simpl. split_and!; try done; by repeat constructor.
Qed.

(** X11. An error of [refreshStatus] is always a new plain error: the text
    "failed to list pods: " or "failed to update nginx status: " followed by
    the text of an error the client answered.  The reason of the cause does
    not come through: the error has no API status, so it is never "already
    exists", whatever the cause was. *)
Theorem refreshStatus_errors_are_wrapped event nginx lg w nginx' e w' :
  refreshStatus event nginx lg w = ((nginx', Some e), w') ->
  (exists cause,
     ((exists items s1,
         sdk.client_List (metav1.Namespace (v1alpha1.ObjectMeta nginx))
           pods_TypeMeta (pods_ListOptions nginx) (store w) = ((items, Some cause), s1))
      /\ e = errorString ("failed to list pods: " +:+ Error cause))
     \/ ((exists s1 s2,
            sdk.client_Update (runtime.ONginx nginx') s1 = (Some cause, s2))
         /\ e = errorString ("failed to update nginx status: " +:+ Error cause)))
  /\ errors.ReasonForError (Some e) = metav1.StatusReasonUnknown
  /\ errors.IsAlreadyExists (Some e) = false.
Proof.
  intros Hrun. destruct (sdk.Deleted event) eqn:Hdel.
  - rewrite (refreshStatus_deleted event nginx lg w Hdel) in Hrun. discriminate.
  - destruct (sdk.client_List (metav1.Namespace (v1alpha1.ObjectMeta nginx))
                pods_TypeMeta (pods_ListOptions nginx) (store w))
      as [[items [cause|]] s1] eqn:Hlist.
    + rewrite (refreshStatus_list_failed event nginx lg w items cause s1 Hdel Hlist)
        in Hrun.
      injection Hrun as <- <- <-. split_and!; try done.
      exists cause. left. split; [by exists items, s1 | done].
    + rewrite (refreshStatus_listed event nginx lg w items s1 Hdel Hlist) in Hrun.
      simpl in Hrun.
      destruct (reflect.DeepEqual _ _); [discriminate|].
      destruct (sdk.client_Update _ s1) as [[cause|] s2] eqn:Hup; [|discriminate].
      injection Hrun as <- <- <-. split_and!; try done.
      exists cause. right. split; [by exists s1, s2 | done].
Qed.

End RefreshMore.

(** ** More on the dependent resources and on [Handle] *)

Section HandleMore.

Context {Store : Type} {client : sdk.Client Store}.
Context {sorter : sort.Sorter} {builders : k8s.Builders}.

Implicit Types (event : sdk.Event) (nginx : v1alpha1.Nginx) (lg : logrus.Entry).
Implicit Types (w : World Store).

Lemma reconcileDeployment_trace nginx lg w :
  calls (reconcileDeployment nginx lg w).2 =
  calls w ++
  (if errors.IsAlreadyExists (sdk.client_Create (deployment_of nginx) (store w)).1
   then [sdk.CallCreate (deployment_of nginx); sdk.CallGet (deployment_of nginx)]
   else [sdk.CallCreate (deployment_of nginx)]).
Proof.
  destruct (sdk.client_Create (deployment_of nginx) (store w)) as [[e|] s1] eqn:Hc;
    simpl.
  - destruct (errors.IsAlreadyExists (Some e)) eqn:Hae.
    + destruct (sdk.client_Get (deployment_of nginx) s1) as [[d' gerr] s2] eqn:Hg.
      by rewrite (reconcileDeployment_exists nginx lg w e s1 d' gerr s2 Hc Hae Hg).
    + by rewrite (reconcileDeployment_create_failed nginx lg w e s1 Hc Hae).
  - by rewrite (reconcileDeployment_created nginx lg w s1 Hc).
Qed.

Lemma reconcileService_trace nginx lg w :
  calls (reconcileService nginx lg w).2
  = calls w ++ [sdk.CallCreate (service_of nginx)].
Proof.
  destruct (sdk.client_Create (service_of nginx) (store w)) as [[e|] s1] eqn:Hc.
  - destruct (errors.IsAlreadyExists (Some e)) eqn:Hae.
    + by rewrite (reconcileService_exists nginx lg w e s1 Hc Hae).
    + by rewrite (reconcileService_create_failed nginx lg w e s1 Hc Hae).
  - by rewrite (reconcileService_created nginx lg w s1 Hc).
Qed.

(** X2. Whatever the client answers, [reconcileDeployment] issues the
    create, then the get if and only if the create answered "already
    exists", and nothing more: it never issues an update. *)
Theorem reconcileDeployment_calls_by_answer nginx lg w :
  let w' := (reconcileDeployment nginx lg w).2 in
  issued w w' =
    (if errors.IsAlreadyExists (sdk.client_Create (deployment_of nginx) (store w)).1
     then [sdk.CallCreate (deployment_of nginx); sdk.CallGet (deployment_of nginx)]
     else [sdk.CallCreate (deployment_of nginx)])
  /\ updates (issued w w') = [].
Proof.
  simpl. rewrite (issued_calls w _ _ (reconcileDeployment_trace nginx lg w)).
  split; [done|]. by destruct (errors.IsAlreadyExists _).
Qed.

(** X3. In [reconcile] (on a notification that is not a deletion) the
    service comes after the deployment and only if the deployment went
    well: when [reconcileDeployment] returns an error, [reconcile] returns
    it and no create of the service is issued; when it returns nil, the
    create of the service is the one call that follows. *)
Theorem reconcile_deployment_first event nginx lg w r w1 :
  sdk.Deleted event = false ->
  reconcileDeployment nginx lg w = (r, w1) ->
  match r with
  | Some e =>
    reconcile event nginx lg w = (Some e, w1)
    /\ sdk.CallCreate (service_of nginx) ∉ issued w w1
  | None =>
    reconcile event nginx lg w = reconcileService nginx lg w1
    /\ issued w (reconcile event nginx lg w).2
       = issued w w1 ++ [sdk.CallCreate (service_of nginx)]
  end.
Proof.
  intros Hdel Hd.
  pose proof (reconcileDeployment_trace nginx lg w) as Htr.
  rewrite (reconcile_steps event nginx lg w Hdel), Hd.
  rewrite Hd in Htr. simpl in Htr.
  destruct r as [e|].
  - split; [done|]. rewrite (issued_calls w w1 _ Htr).
    unfold service_of, deployment_of.
    destruct (errors.IsAlreadyExists _);
      rewrite ?elem_of_cons, elem_of_nil; intros H;
      repeat destruct H as [H|H]; done.
  - split; [done|].
    rewrite (issued_calls w w1 _ Htr).
    apply issued_calls. rewrite reconcileService_trace, Htr. by rewrite app_assoc.
Qed.

(** X4. [reconcile] makes up no error: an error it returns is the very
    error the client answered to the create of the deployment or of the
    service, not "already exists", or to the get of the deployment. *)
Theorem reconcile_error_origin event nginx lg w e w' :
  reconcile event nginx lg w = (Some e, w') ->
  (exists s s', sdk.client_Create (deployment_of nginx) s = (Some e, s')
                /\ errors.IsAlreadyExists (Some e) = false)
  \/ (exists s d' s', sdk.client_Get (deployment_of nginx) s = ((d', Some e), s'))
  \/ (exists s s', sdk.client_Create (service_of nginx) s = (Some e, s')
                   /\ errors.IsAlreadyExists (Some e) = false).
Proof.
  intros Hrun. destruct (sdk.Deleted event) eqn:Hdel.
  { rewrite (reconcile_deleted event nginx lg w Hdel) in Hrun. discriminate. }
  rewrite (reconcile_steps event nginx lg w Hdel) in Hrun.
  destruct (sdk.client_Create (deployment_of nginx) (store w)) as [[ed|] s1] eqn:Hc.
  - destruct (errors.IsAlreadyExists (Some ed)) eqn:Hae.
    + destruct (sdk.client_Get (deployment_of nginx) s1) as [[d' [g|]] s2] eqn:Hg.
      * rewrite (reconcileDeployment_exists nginx lg w ed s1 d' _ s2 Hc Hae Hg) in Hrun.
        injection Hrun as <- _. right. left. by exists s1, d', s2.
      * rewrite (reconcileDeployment_exists nginx lg w ed s1 d' _ s2 Hc Hae Hg) in Hrun.
        revert Hrun. set (w1 := mkWorld s2 _ _). intros Hrun.
        destruct (sdk.client_Create (service_of nginx) (store w1)) as [[es|] s3] eqn:Hs.
        -- destruct (errors.IsAlreadyExists (Some es)) eqn:Haes.
           ++ rewrite (reconcileService_exists nginx lg w1 es s3 Hs Haes) in Hrun.
              discriminate.
           ++ rewrite (reconcileService_create_failed nginx lg w1 es s3 Hs Haes) in Hrun.
              injection Hrun as <- _. right. right. by exists (store w1), s3.
        -- rewrite (reconcileService_created nginx lg w1 s3 Hs) in Hrun. discriminate.
    + rewrite (reconcileDeployment_create_failed nginx lg w ed s1 Hc Hae) in Hrun.
      injection Hrun as <- _. left. by exists (store w), s1.
  - rewrite (reconcileDeployment_created nginx lg w s1 Hc) in Hrun.
    revert Hrun. set (w1 := mkWorld s1 _ _). intros Hrun.
    destruct (sdk.client_Create (service_of nginx) (store w1)) as [[es|] s3] eqn:Hs.
    + destruct (errors.IsAlreadyExists (Some es)) eqn:Haes.
      * rewrite (reconcileService_exists nginx lg w1 es s3 Hs Haes) in Hrun.
        discriminate.
      * rewrite (reconcileService_create_failed nginx lg w1 es s3 Hs Haes) in Hrun.
        injection Hrun as <- _. right. right. by exists (store w1), s3.
    + rewrite (reconcileService_created nginx lg w1 s3 Hs) in Hrun. discriminate.
Qed.

(** the calls of [reconcile]: never an update *)
Lemma reconcile_trace event nginx lg w :
  exists cs, calls (reconcile event nginx lg w).2 = calls w ++ cs
             /\ updates cs = [] /\ status_writes cs = [].
Proof.
  destruct (sdk.Deleted event) eqn:Hdel.
  - rewrite (reconcile_deleted event nginx lg w Hdel). simpl.
    exists []. by rewrite app_nil_r.
  - rewrite (reconcile_steps event nginx lg w Hdel).
    pose proof (reconcileDeployment_trace nginx lg w) as Hd.
    destruct (reconcileDeployment nginx lg w) as [[e|] w1]; simpl in *.
    + eexists. split; [exact Hd|]. by destruct (errors.IsAlreadyExists _).
    + pose proof (reconcileService_trace nginx lg w1) as Hs.
      eexists. split; [rewrite Hs, Hd; by rewrite <- app_assoc|].
      by destruct (errors.IsAlreadyExists _).
Qed.

(** the calls of [refreshStatus]: at most one update, of the resource as
    it is in memory at the return *)
Lemma refreshStatus_trace event nginx lg w :
  exists cs, calls (refreshStatus event nginx lg w).2 = calls w ++ cs
             /\ updates cs = runtime.ONginx <$> status_writes cs
             /\ length (status_writes cs) <= 1
             /\ Forall (fun n => n = (refreshStatus event nginx lg w).1.1)
                       (status_writes cs).
Proof.
  destruct (sdk.Deleted event) eqn:Hdel.
  - rewrite (refreshStatus_deleted event nginx lg w Hdel). simpl.
    exists []. rewrite app_nil_r. simpl. split_and!; try done. lia.
  - destruct (sdk.client_List (metav1.Namespace (v1alpha1.ObjectMeta nginx))
                pods_TypeMeta (pods_ListOptions nginx) (store w))
      as [[items [cause|]] s1] eqn:Hlist.
    + rewrite (refreshStatus_list_failed event nginx lg w items cause s1 Hdel Hlist).
      simpl. eexists. split; [done|]. simpl. split_and!; try done. lia.
    + rewrite (refreshStatus_listed event nginx lg w items s1 Hdel Hlist). simpl.
      destruct (reflect.DeepEqual _ _); simpl.
      * eexists. split; [done|]. simpl. split_and!; try done. lia.
      * destruct (sdk.client_Update _ s1) as [e s2]. simpl.
        eexists. split; [done|]. simpl. split_and!; try done.
        by repeat constructor.
Qed.

(** X5. Of all the calls of [Handle] for a resource, at most one is an
    update, and it is a write of the resource itself, as [Handle] leaves it
    in memory: a deployment or a service is never updated.  The resource
    [Handle] leaves in memory has the metadata and the spec of the one it
    was given. *)
Theorem Handle_updates_only_status (h : Handler) event o w :
  sdk.Object event = runtime.ONginx o ->
  let w' := (Handle h event w).2 in
  exists o',
    (Handle h event w).1.1 = runtime.ONginx o'
    /\ v1alpha1.ObjectMeta o' = v1alpha1.ObjectMeta o
    /\ v1alpha1.Spec o' = v1alpha1.Spec o
    /\ updates (issued w w') = runtime.ONginx <$> status_writes (issued w w')
    /\ length (status_writes (issued w w')) <= 1
    /\ Forall (fun n => n = o') (status_writes (issued w w')).
Proof.
  intros Hobj. simpl. rewrite (Handle_steps h event o w Hobj). simpl.
  set (lg := entry_of h o). set (w0 := mkWorld _ _ _).
  destruct (reconcile_trace event o lg w0) as (cs1 & Hcs1 & Hup1 & Hst1).
  destruct (reconcile event o lg w0) as [[e|] w1]; simpl in *.
  - exists o. rewrite (issued_calls w w1 cs1 Hcs1), Hup1, Hst1. simpl.
    split_and!; try done. lia.
  - destruct (refreshStatus_trace event o lg w1) as (cs2 & Hcs2 & Hup2 & Hlen2 & Hall2).
    pose proof (refreshStatus_keeps_identity_aux event o lg w1) as [Hom Hsp].
    destruct (refreshStatus event o lg w1) as [[o' err] w2]; simpl in *.
    exists o'. rewrite (issued_calls w w2 (cs1 ++ cs2)).
    + unfold updates, status_writes in *. rewrite !omap_app.
      rewrite Hup1, Hst1. simpl. by split_and!.
    + rewrite Hcs2, Hcs1. by rewrite app_assoc.
Qed.

(** X1. [Handle] does nothing for an object that is not an Nginx resource:
    it returns nil, issues no call and logs no line. *)
Theorem Handle_other_kinds (h : Handler) event w :
  (forall o, sdk.Object event <> runtime.ONginx o) ->
  Handle h event w = ((sdk.Object event, None), w).
Proof.
  intros Hother. unfold Handle.
  destruct (sdk.Object event) as [o| | |]; [by destruct (Hother o) | done..].
Qed.

End HandleMore.

(** ** The properties at work

    Each property above, applied to a run of the handler: against a client
    with canned answers, or against the store in memory, with merge sort
    for [sort.Slice]. *)

#[local] Existing Instance sort.merge_sorter.
#[local] Existing Instance sample.builders.

(** Pods b and a observed, a and b stored: no write.  Pod a observed, a
    and b stored: one write, of the list with a alone. *)
Lemma refreshStatus_writes_iff_differ_witness :
  status_writes
    (issued (sample.world tt)
       (refreshStatus (client := canned.client (sample.ok [sample.podB; sample.podA]))
          (sample.update_event (sample.nginx (Some [sample.a; sample.b])))
          (sample.nginx (Some [sample.a; sample.b]))
          sample.entry (sample.world tt)).2) = []
  /\ status_writes
       (issued (sample.world tt)
          (refreshStatus (client := canned.client (sample.ok [sample.podA]))
             (sample.update_event (sample.nginx (Some [sample.a; sample.b])))
             (sample.nginx (Some [sample.a; sample.b]))
             sample.entry (sample.world tt)).2) = [sample.nginx (Some [sample.a])].
Proof.
  split.
  - destruct (refreshStatus_writes_iff_differ
                (client := canned.client (sample.ok [sample.podB; sample.podA]))
                (sample.update_event (sample.nginx (Some [sample.a; sample.b])))
                (sample.nginx (Some [sample.a; sample.b]))
                sample.entry (sample.world tt) [sample.podB; sample.podA] tt
                eq_refl eq_refl)
      as (n' & err & w' & Hrun & _ & _ & _ & Hsame & _).
    rewrite Hrun. simpl.
    destruct (Hsame eq_refl) as (_ & _ & -> & _). reflexivity.
  - destruct (refreshStatus_writes_iff_differ
                (client := canned.client (sample.ok [sample.podA]))
                (sample.update_event (sample.nginx (Some [sample.a; sample.b])))
                (sample.nginx (Some [sample.a; sample.b]))
                sample.entry (sample.world tt) [sample.podA] tt
                eq_refl eq_refl)
      as (n' & err & w' & Hrun & _ & _ & _ & _ & Hdiff & _).
    rewrite Hrun. simpl.
    destruct Hdiff as (-> & -> & _); [discriminate | reflexivity].
Defined.

(** No pod listed, and a stored list that is empty and not nil: the two
    sorted lists have the same entries, and the status is written all the
    same.  So a write does not tell that the entries differ. *)
Lemma refreshStatus_writes_same_entries :
  ~ (status_writes
       (issued (sample.world tt)
          (refreshStatus (client := canned.client (sample.ok []))
             (sample.update_event (sample.nginx (Some [])))
             (sample.nginx (Some [])) sample.entry (sample.world tt)).2) <> []
     <-> ~ same_entries (sort.Slice (observed []) less_Name)
                        (sort.Slice (Some []) less_Name)).
Proof.
  intros [Hwrite _]. apply Hwrite.
  - vm_compute. discriminate.
  - split; [reflexivity|]. intros i a b Ha. simpl in Ha. by rewrite lookup_nil in Ha.
Qed.

Lemma Handle_deleted_witness :
  (Handle (client := canned.client (sample.ok [sample.podA])) sample.handler
     (sample.delete_event (sample.nginx None)) (sample.world tt)).1
    = (runtime.ONginx (sample.nginx None), None)
  /\ calls (Handle (client := canned.client (sample.ok [sample.podA])) sample.handler
              (sample.delete_event (sample.nginx None)) (sample.world tt)).2 = [].
Proof.
  destruct (Handle_deleted
              (client := canned.client (sample.ok [sample.podA])) sample.handler
              (sample.delete_event (sample.nginx None)) (sample.nginx None)
              (sample.world tt) eq_refl eq_refl)
    as (w' & Hrun & _ & Hcalls & _).
  rewrite Hrun. simpl. split; [reflexivity | exact Hcalls].
Defined.

(** Every create refused: [Handle] returns the refusal and lists nothing.
    Every call answered: [Handle] goes on to the status refresh, which
    writes the observed pod. *)
Lemma Handle_sequences_witness :
  (Handle (client := canned.client sample.create_refused) sample.handler
     (sample.update_event (sample.nginx None)) (sample.world tt)).1
    = (runtime.ONginx (sample.nginx None), Some sample.refused)
  /\ (Handle (client := canned.client (sample.ok [sample.podA])) sample.handler
        (sample.update_event (sample.nginx None)) (sample.world tt)).1
    = (runtime.ONginx (sample.nginx (Some [sample.a])), None).
Proof.
  split.
  - pose proof (fun r w1 =>
                  Handle_sequences (client := canned.client sample.create_refused)
                    sample.handler (sample.update_event (sample.nginx None))
                    (sample.nginx None) (sample.world tt) r w1 eq_refl eq_refl) as H.
    simpl in H. specialize (H (Some sample.refused) _ eq_refl).
    destruct H as [-> _]. reflexivity.
  - pose proof (fun r w1 =>
                  Handle_sequences (client := canned.client (sample.ok [sample.podA]))
                    sample.handler (sample.update_event (sample.nginx None))
                    (sample.nginx None) (sample.world tt) r w1 eq_refl eq_refl) as H.
    simpl in H. specialize (H None _ eq_refl).
    destruct H as (o' & err & w2 & cs & Hrefresh & -> & _).
    vm_compute in Hrefresh. injection Hrefresh as <- <- _. reflexivity.
Defined.

(** The deployment in the way: fetched, and success; fetched in vain, and
    the error of the get. *)
Lemma reconcileDeployment_already_exists_witness :
  (reconcileDeployment (client := canned.client (sample.deployment_exists None))
     (sample.nginx None) sample.entry (sample.world tt)).1 = None
  /\ (reconcileDeployment
        (client := canned.client (sample.deployment_exists (Some sample.timeout)))
        (sample.nginx None) sample.entry (sample.world tt)).1 = Some sample.timeout.
Proof.
  split.
  - destruct (reconcileDeployment_already_exists
                (client := canned.client (sample.deployment_exists None))
                (sample.nginx None) sample.entry (sample.world tt)
                sample.conflict tt (deployment_of (sample.nginx None)) None tt
                eq_refl eq_refl eq_refl) as (w' & -> & _).
    reflexivity.
  - destruct (reconcileDeployment_already_exists
                (client := canned.client (sample.deployment_exists (Some sample.timeout)))
                (sample.nginx None) sample.entry (sample.world tt)
                sample.conflict tt (deployment_of (sample.nginx None))
                (Some sample.timeout) tt
                eq_refl eq_refl eq_refl) as (w' & -> & _).
    reflexivity.
Defined.

Lemma reconcileService_already_exists_witness :
  exists w',
    reconcileService (client := canned.client (sample.service_answers sample.conflict))
      (sample.nginx None) sample.entry (sample.world tt) = (None, w')
    /\ calls w' = [sdk.CallCreate (service_of (sample.nginx None))].
Proof.
  destruct (reconcileService_already_exists
              (client := canned.client (sample.service_answers sample.conflict))
              (sample.nginx None) sample.entry (sample.world tt)
              sample.conflict tt eq_refl eq_refl) as (w' & Hrun & Hcalls & _).
  exists w'. split; [exact Hrun | exact Hcalls].
Defined.

(** On the store in memory, empty at first: the first run creates both
    objects, the second finds them and leaves the store alone. *)
Lemma reconcile_twice_witness :
  exists w2,
    reconcile (client := memstore.client sample.every_pod)
      (sample.update_event (sample.nginx None)) (sample.nginx None) sample.entry
      (reconcile (client := memstore.client sample.every_pod)
         (sample.update_event (sample.nginx None)) (sample.nginx None) sample.entry
         (sample.world ∅)).2 = (None, w2)
    /\ store w2 =
       store (reconcile (client := memstore.client sample.every_pod)
                (sample.update_event (sample.nginx None)) (sample.nginx None)
                sample.entry (sample.world ∅)).2.
Proof.
  assert ((reconcile (client := memstore.client sample.every_pod)
             (sample.update_event (sample.nginx None)) (sample.nginx None) sample.entry
             (sample.world ∅)).1 = None) as Hok.
  { vm_compute. reflexivity. }
  pose proof (surjective_pairing
                (reconcile (client := memstore.client sample.every_pod)
                   (sample.update_event (sample.nginx None)) (sample.nginx None)
                   sample.entry (sample.world ∅))) as Hfirst.
  rewrite Hok in Hfirst.
  destruct (reconcile_twice (client := memstore.client sample.every_pod)
              (fun s o => is_Some (s !! memstore.key_of o))
              (at_rest := memstore_at_rest sample.every_pod)
              (sample.update_event (sample.nginx None)) (sample.nginx None)
              sample.entry (sample.world ∅) _ eq_refl Hfirst)
    as (w2 & Hrun & Hstore & _).
  exists w2. split; [exact Hrun | exact Hstore].
Defined.

Lemma refreshStatus_list_failure_witness :
  exists w',
    refreshStatus (client := canned.client sample.list_fails)
      (sample.update_event (sample.nginx (Some [sample.b; sample.a])))
      (sample.nginx (Some [sample.b; sample.a])) sample.entry (sample.world tt)
    = ((sample.nginx (Some [sample.b; sample.a]),
        Some (errorString "failed to list pods: context deadline exceeded")), w')
    /\ status_writes (calls w') = [].
Proof.
  destruct (refreshStatus_list_failure (client := canned.client sample.list_fails)
              (sample.update_event (sample.nginx (Some [sample.b; sample.a])))
              (sample.nginx (Some [sample.b; sample.a])) sample.entry (sample.world tt)
              [] sample.timeout tt eq_refl eq_refl)
    as (w' & Hrun & Hcalls & _).
  exists w'. split; [exact Hrun|].
  unfold issued in Hcalls. simpl in Hcalls. rewrite drop_0 in Hcalls.
  rewrite Hcalls. reflexivity.
Defined.


Lemma refreshStatus_nil_replaces_empty_witness :
  status_writes
    (calls (refreshStatus (client := canned.client (sample.ok []))
              (sample.update_event (sample.nginx (Some [])))
              (sample.nginx (Some [])) sample.entry (sample.world tt)).2)
  = [sample.nginx None].
Proof.
  destruct (refreshStatus_nil_replaces_empty (client := canned.client (sample.ok []))
              (sample.update_event (sample.nginx (Some [])))
              (sample.nginx (Some [])) sample.entry (sample.world tt) tt
              eq_refl eq_refl eq_refl)
    as (_ & _ & _ & err & w' & Hrun & _ & Hwrites).
  simpl in Hrun. rewrite Hrun. simpl.
  unfold issued in Hwrites. simpl in Hwrites. rewrite drop_0 in Hwrites.
  exact Hwrites.
Defined.

(** Pods b and a observed, b and a stored, in that order: nothing is
    written, and the list in memory comes out sorted. *)
Lemma refreshStatus_leaves_sorted_witness :
  sorted_by_Name
    (v1alpha1.Pods (v1alpha1.Status
       (refreshStatus (client := canned.client (sample.ok [sample.podB; sample.podA]))
          (sample.update_event (sample.nginx (Some [sample.b; sample.a])))
          (sample.nginx (Some [sample.b; sample.a]))
          sample.entry (sample.world tt)).1.1))
  /\ calls (refreshStatus (client := canned.client (sample.ok [sample.podB; sample.podA]))
              (sample.update_event (sample.nginx (Some [sample.b; sample.a])))
              (sample.nginx (Some [sample.b; sample.a]))
              sample.entry (sample.world tt)).2
     = [list_pods (sample.nginx (Some [sample.b; sample.a]))].
Proof.
  split; [|vm_compute; reflexivity].
  apply (refreshStatus_leaves_sorted
           (client := canned.client (sample.ok [sample.podB; sample.podA]))
           (sample.update_event (sample.nginx (Some [sample.b; sample.a])))
           (sample.nginx (Some [sample.b; sample.a]))
           sample.entry (sample.world tt) _
           (refreshStatus (client := canned.client (sample.ok [sample.podB; sample.podA]))
              (sample.update_event (sample.nginx (Some [sample.b; sample.a])))
              (sample.nginx (Some [sample.b; sample.a]))
              sample.entry (sample.world tt)).2 eq_refl).
  vm_compute. reflexivity.
Defined.

(** A whole run on the store in memory: both dependent objects are created,
    the pods are listed, and the status is written, sorted. *)
Example Handle_on_cluster :
  let run := Handle (client := memstore.client sample.every_pod) sample.handler
               (sample.update_event (sample.nginx None)) (sample.world sample.cluster) in
  run.1 = (runtime.ONginx (sample.nginx (Some [sample.a; sample.b])), None)
  /\ calls run.2 =
     [sdk.CallCreate (deployment_of (sample.nginx None));
      sdk.CallCreate (service_of (sample.nginx None));
      list_pods (sample.nginx None);
      sdk.CallUpdate (runtime.ONginx (sample.nginx (Some [sample.a; sample.b])))]
  /\ store run.2 !! memstore.key_of (runtime.ONginx (sample.nginx None))
     = Some (runtime.ONginx (sample.nginx (Some [sample.a; sample.b]))).
Proof. vm_compute. by split_and!. Qed.

(** ** More runs *)

Lemma Handle_other_kinds_witness :
  Handle (client := canned.client (sample.ok [sample.podA])) sample.handler
    sample.pod_event (sample.world tt)
  = ((runtime.OPod sample.podA, None), sample.world tt).
Proof.
  apply (Handle_other_kinds (client := canned.client (sample.ok [sample.podA]))
           sample.handler sample.pod_event (sample.world tt)).
  intros o. simpl. discriminate.
Defined.

(** Every create refused: the service is not tried.  Every call answered:
    the create of the service follows the create of the deployment. *)
Lemma reconcile_deployment_first_witness :
  (sdk.CallCreate (service_of (sample.nginx None))
     ∉ calls (reconcile (client := canned.client sample.create_refused)
                (sample.update_event (sample.nginx None)) (sample.nginx None)
                sample.entry (sample.world tt)).2)
  /\ calls (reconcile (client := canned.client (sample.ok []))
              (sample.update_event (sample.nginx None)) (sample.nginx None)
              sample.entry (sample.world tt)).2
     = [sdk.CallCreate (deployment_of (sample.nginx None));
        sdk.CallCreate (service_of (sample.nginx None))].
Proof.
  split.
  - pose proof (fun r w1 =>
                  reconcile_deployment_first (client := canned.client sample.create_refused)
                    (sample.update_event (sample.nginx None)) (sample.nginx None)
                    sample.entry (sample.world tt) r w1 eq_refl) as H.
    specialize (H (Some sample.refused) _ eq_refl). simpl in H.
    destruct H as [_ H]. exact H.
  - pose proof (fun r w1 =>
                  reconcile_deployment_first (client := canned.client (sample.ok []))
                    (sample.update_event (sample.nginx None)) (sample.nginx None)
                    sample.entry (sample.world tt) r w1 eq_refl) as H.
    specialize (H None _ eq_refl). simpl in H.
    destruct H as [_ H]. exact H.
Defined.

Lemma reconcile_error_origin_witness :
  (exists s s',
     sdk.client_Create (Client := canned.client sample.create_refused)
       (deployment_of (sample.nginx None)) s = (Some sample.refused, s')
     /\ errors.IsAlreadyExists (Some sample.refused) = false)
  \/ (exists s d' s',
        sdk.client_Get (Client := canned.client sample.create_refused)
          (deployment_of (sample.nginx None)) s = ((d', Some sample.refused), s'))
  \/ (exists s s',
        sdk.client_Create (Client := canned.client sample.create_refused)
          (service_of (sample.nginx None)) s = (Some sample.refused, s')
        /\ errors.IsAlreadyExists (Some sample.refused) = false).
Proof.
  exact (reconcile_error_origin (client := canned.client sample.create_refused)
           (sample.update_event (sample.nginx None)) (sample.nginx None)
           sample.entry (sample.world tt) sample.refused _ eq_refl).
Defined.

Lemma Handle_updates_only_status_witness :
  exists o',
    (Handle (client := canned.client (sample.ok [sample.podA])) sample.handler
       (sample.update_event (sample.nginx None)) (sample.world tt)).1.1
      = runtime.ONginx o'
    /\ status_writes
         (calls (Handle (client := canned.client (sample.ok [sample.podA])) sample.handler
                   (sample.update_event (sample.nginx None)) (sample.world tt)).2)
       = [o'].
Proof.
  destruct (Handle_updates_only_status
              (client := canned.client (sample.ok [sample.podA])) sample.handler
              (sample.update_event (sample.nginx None)) (sample.nginx None)
              (sample.world tt) eq_refl)
    as (o' & Ho' & _ & _ & _ & _ & _).
  exists o'. split; [exact Ho'|].
  vm_compute in Ho'. injection Ho' as <-. vm_compute. reflexivity.
Defined.

(** Pod a listed, nothing stored, and an update that times out: the error
    comes back wrapped, and the list in memory holds a all the same. *)
Lemma refreshStatus_update_failure_witness :
  (refreshStatus (client := canned.client (sample.update_fails [sample.podA]))
     (sample.update_event (sample.nginx None)) (sample.nginx None)
     sample.entry (sample.world tt)).1
  = (sample.nginx (Some [sample.a]),
     Some (errorString "failed to update nginx status: context deadline exceeded")).
Proof.
  rewrite (refreshStatus_update_failure
             (client := canned.client (sample.update_fails [sample.podA]))
             (sorter := sort.merge_sorter) (builders := sample.builders)
             (sample.update_event (sample.nginx None)) (sample.nginx None)
             sample.entry (sample.world tt) [sample.podA] tt sample.timeout tt
             eq_refl eq_refl ltac:(simpl; discriminate) eq_refl).
  reflexivity.
Defined.

Lemma refreshStatus_order_independent_witness :
  status_writes
    (issued (sample.world tt)
       (refreshStatus (client := canned.client (sample.ok [sample.podB; sample.podA]))
          (sample.update_event (sample.nginx (Some [sample.a; sample.b])))
          (sample.nginx (Some [sample.a; sample.b]))
          sample.entry (sample.world tt)).2) = []
  /\ status_writes
       (issued (sample.world tt)
          (refreshStatus (client := canned.client (sample.ok []))
             (sample.update_event (sample.nginx None)) (sample.nginx None)
             sample.entry (sample.world tt)).2) = [].
Proof.
  split.
  - apply (refreshStatus_order_independent
             (client := canned.client (sample.ok [sample.podB; sample.podA]))
             (sample.update_event (sample.nginx (Some [sample.a; sample.b])))
             (sample.nginx (Some [sample.a; sample.b]))
             sample.entry (sample.world tt) [sample.podB; sample.podA] tt).
    + reflexivity.
    + reflexivity.
    + simpl. apply perm_swap.
    + simpl. apply NoDup_cons.
      split; [rewrite list_elem_of_singleton; discriminate | apply NoDup_singleton].
    + simpl. split; discriminate.
  - apply (refreshStatus_order_independent
             (client := canned.client (sample.ok []))
             (sample.update_event (sample.nginx None)) (sample.nginx None)
             sample.entry (sample.world tt) [] tt).
    + reflexivity.
    + reflexivity.
    + simpl. reflexivity.
    + simpl. apply NoDup_nil_2.
    + simpl. split; reflexivity.
Defined.

Lemma refreshStatus_in_memory_witness :
  v1alpha1.Pods (v1alpha1.Status
    (refreshStatus (client := canned.client (sample.update_fails [sample.podB; sample.podA]))
       (sample.update_event (sample.nginx None)) (sample.nginx None)
       sample.entry (sample.world tt)).1.1)
  = Some [sample.a; sample.b].
Proof.
  destruct (refreshStatus_in_memory
              (client := canned.client (sample.update_fails [sample.podB; sample.podA]))
              (sample.update_event (sample.nginx None)) (sample.nginx None)
              sample.entry (sample.world tt) [sample.podB; sample.podA] tt
              eq_refl eq_refl) as [H _].
  rewrite H. reflexivity.
Defined.

(** Pods b and a listed, nothing stored: the first refresh writes a and b,
    the second writes nothing. *)
Lemma refreshStatus_second_run_witness :
  status_writes
    (calls (refreshStatus (client := canned.client (sample.ok [sample.podB; sample.podA]))
              (sample.update_event (sample.nginx None)) (sample.nginx None)
              sample.entry (sample.world tt)).2)
  = [sample.nginx (Some [sample.a; sample.b])]
  /\ exists w'',
       refreshStatus (client := canned.client (sample.ok [sample.podB; sample.podA]))
         (sample.update_event (sample.nginx None))
         (sample.nginx (Some [sample.a; sample.b])) sample.entry
         (refreshStatus (client := canned.client (sample.ok [sample.podB; sample.podA]))
            (sample.update_event (sample.nginx None)) (sample.nginx None)
            sample.entry (sample.world tt)).2
       = ((sample.nginx (Some [sample.a; sample.b]), None), w'')
       /\ status_writes
            (issued
               (refreshStatus (client := canned.client (sample.ok [sample.podB; sample.podA]))
                  (sample.update_event (sample.nginx None)) (sample.nginx None)
                  sample.entry (sample.world tt)).2 w'') = [].
Proof.
  split; [vm_compute; reflexivity|].
  assert (refreshStatus (client := canned.client (sample.ok [sample.podB; sample.podA]))
            (sample.update_event (sample.nginx None)) (sample.nginx None)
            sample.entry (sample.world tt)
          = ((sample.nginx (Some [sample.a; sample.b]), None),
             (refreshStatus (client := canned.client (sample.ok [sample.podB; sample.podA]))
                (sample.update_event (sample.nginx None)) (sample.nginx None)
                sample.entry (sample.world tt)).2)) as Hfirst.
  { vm_compute. reflexivity. }
  assert (NoDup (map (fun p => metav1.Name (corev1.ObjectMeta p))
                   [sample.podB; sample.podA])) as Hnames.
  { simpl. apply NoDup_cons.
    split; [rewrite list_elem_of_singleton; discriminate | apply NoDup_singleton]. }
  destruct (refreshStatus_second_run
              (client := canned.client (sample.ok [sample.podB; sample.podA]))
              (sample.update_event (sample.nginx None)) (sample.nginx None)
              sample.entry (sample.world tt) [sample.podB; sample.podA] tt
              _ _ _ tt eq_refl eq_refl Hfirst eq_refl Hnames)
    as (w'' & Hrun & _ & Hquiet).
  exists w''. split; [exact Hrun | exact Hquiet].
Defined.

(** A list call refused with the reason "Forbidden": the error that comes
    back has no reason. *)
Lemma refreshStatus_errors_are_wrapped_witness :
  errors.ReasonForError (Some sample.refused) = "Forbidden"
  /\ errors.ReasonForError
       (refreshStatus (client := canned.client sample.list_refused)
          (sample.update_event (sample.nginx None)) (sample.nginx None)
          sample.entry (sample.world tt)).1.2
     = metav1.StatusReasonUnknown.
Proof.
  split; [reflexivity|].
  destruct (refreshStatus_errors_are_wrapped
              (client := canned.client sample.list_refused)
              (sample.update_event (sample.nginx None)) (sample.nginx None)
              sample.entry (sample.world tt) _
              (errorString "failed to list pods: forbidden") _ eq_refl)
    as (_ & H & _).
  exact H.
Defined.
